(** * agent_display.py: the recursive JSON normalizer and the trace renderer

  A shallow embedding of [src/agent_display.py].

  - [Py]    : the Python values the renderer handles and the dynamic
              operations of the language the source relies on
              ([str.strip], truthiness, [len], iteration, [getattr], ...).
  - [Json]  : the two entry points of Python's [json] package the source
              calls: [json.loads] (a recursive-descent scanner following
              [json.decoder] / [json.scanner]) and the condition under
              which [json.dumps] raises [TypeError].
  - [Rich]  : the renderables handed to [rich]'s console, kept symbolic,
              and the procedures that print them and may raise.
  - [AgentDisplay] : the functions of the source file, one definition per
              Python function, under the source's names.
  - [Samples] : a few response records.

  Modelling boundary.  A Python [str] is a list of code points.  A float
  is the decimal number it is written as (rounding to binary64 is not
  modelled).  Interpreter resource limits (the recursion limit, the limit
  on the digits of an integer literal) are not modelled: recursion depth
  is explicit fuel.  [rich] is a sink of renderables: its markup
  interpretation and layout are not modelled. *)

From Stdlib Require Import String Ascii ZArith NArith Bool Lia List.
Import ListNotations.

(* ===================================================================== *)
(** * Python values                                                       *)
(* ===================================================================== *)

Module Py.

(** A [str]: its code points. *)
Definition pystr := list N.

(** A literal of the source text as a [str]. *)
Definition lit (s : string) : pystr :=
  List.map N_of_ascii (list_ascii_of_string s).

(** The code point of a character of the source text. *)
Definition ch (a : ascii) : N := N_of_ascii a.

Definition dquote : N := 34%N.
Definition backslash : N := 92%N.
Definition newline : N := 10%N.

Fixpoint str_eqb (a b : pystr) : bool :=
  match a, b with
  | [], [] => true
  | x :: a', y :: b' => N.eqb x y && str_eqb a' b'
  | _, _ => false
  end.

(** A float, as the decimal [(-1)^neg * digits * 10^exp10] it denotes. *)
Inductive pyfloat : Type :=
| FNaN
| FInf (neg : bool)
| FDec (neg : bool) (digits : N) (exp10 : Z).

(** Values: the plain data of a response record, and objects as the bag
    of their data attributes (messages, agent actions).  A [dict] keeps
    its insertion order; its keys are strings, as in [Dict[str, Any]]. *)
Unset Elimination Schemes.
Inductive pyval : Type :=
| PNone
| PBool (b : bool)
| PInt (z : Z)
| PFloat (f : pyfloat)
| PStr (s : pystr)
| PList (items : list pyval)
| PTuple (items : list pyval)
| PDict (items : list (pystr * pyval))
| PObj (attrs : list (string * pyval)).
Set Elimination Schemes.

(** Structural induction through the nested lists. *)
Section PyvalInd.
Variable P : pyval -> Prop.
Hypothesis HNone : P PNone.
Hypothesis HBool : forall b, P (PBool b).
Hypothesis HInt : forall z, P (PInt z).
Hypothesis HFloat : forall f, P (PFloat f).
Hypothesis HStr : forall s, P (PStr s).
Hypothesis HList : forall l, Forall P l -> P (PList l).
Hypothesis HTuple : forall l, Forall P l -> P (PTuple l).
Hypothesis HDict : forall d, Forall (fun kv => P (snd kv)) d -> P (PDict d).
Hypothesis HObj : forall a, Forall (fun kv => P (snd kv)) a -> P (PObj a).

Fixpoint pyval_ind (v : pyval) : P v :=
  match v with
  | PNone => HNone
  | PBool b => HBool b
  | PInt z => HInt z
  | PFloat f => HFloat f
  | PStr s => HStr s
  | PList l =>
      HList l ((fix go (l : list pyval) : Forall P l :=
                match l with
                | [] => Forall_nil _
                | x :: l' => Forall_cons x (pyval_ind x) (go l')
                end) l)
  | PTuple l =>
      HTuple l ((fix go (l : list pyval) : Forall P l :=
                 match l with
                 | [] => Forall_nil _
                 | x :: l' => Forall_cons x (pyval_ind x) (go l')
                 end) l)
  | PDict d =>
      HDict d ((fix go (d : list (pystr * pyval))
                : Forall (fun kv => P (snd kv)) d :=
                match d with
                | [] => Forall_nil _
                | kv :: d' =>
                    Forall_cons kv (pyval_ind (snd kv)) (go d')
                end) d)
  | PObj a =>
      HObj a ((fix go (a : list (string * pyval))
               : Forall (fun kv => P (snd kv)) a :=
               match a with
               | [] => Forall_nil _
               | kv :: a' =>
                   Forall_cons kv (pyval_ind (snd kv)) (go a')
               end) a)
  end.
End PyvalInd.

(** Exceptions the modelled code can raise. *)
Inductive exn : Type :=
| AttributeError
| TypeError
| ValueError
| KeyError
| IndexError.

(** A computation that returns a value or raises. *)
Definition res (A : Type) : Type := (exn + A)%type.
Definition ok {A} (a : A) : res A := inr a.
Definition raise {A} (e : exn) : res A := inl e.
Definition bind {A B} (m : res A) (k : A -> res B) : res B :=
  match m with
  | inl e => inl e
  | inr a => k a
  end.

(* ------------------------------------------------------------------- *)
(** ** [str] methods                                                    *)
(* ------------------------------------------------------------------- *)

(** [Py_UNICODE_ISSPACE]: what [str.strip()] removes. *)
Definition isspace (c : N) : bool :=
  ((9 <=? c) && (c <=? 13) || (28 <=? c) && (c <=? 32)
   || (c =? 133) || (c =? 160) || (c =? 5760)
   || (8192 <=? c) && (c <=? 8202)
   || (c =? 8232) || (c =? 8233) || (c =? 8239) || (c =? 8287)
   || (c =? 12288))%N.

Fixpoint lstrip (s : pystr) : pystr :=
  match s with
  | c :: r => if isspace c then lstrip r else s
  | [] => []
  end.

Definition rstrip (s : pystr) : pystr := rev (lstrip (rev s)).

Definition strip (s : pystr) : pystr := rstrip (lstrip s).

Fixpoint startswith (p s : pystr) : bool :=
  match p, s with
  | [], _ => true
  | x :: p', y :: s' => N.eqb x y && startswith p' s'
  | _ :: _, [] => false
  end.

Definition endswith (p s : pystr) : bool := startswith (rev p) (rev s).

(** [p in s] for two strings: [p] occurs in [s]. *)
Fixpoint str_contains (p s : pystr) : bool :=
  startswith p s ||
  match s with
  | [] => false
  | _ :: s' => str_contains p s'
  end.

(** [s.split('\n')[0]]: the text before the first newline. *)
Fixpoint first_line (s : pystr) : pystr :=
  match s with
  | [] => []
  | c :: r => if N.eqb c newline then [] else c :: first_line r
  end.

(* ------------------------------------------------------------------- *)
(** ** Dynamic operations                                               *)
(* ------------------------------------------------------------------- *)

(** [d.get(k)] on the items of a [dict]: [None] when the key is absent. *)
Fixpoint dict_get (k : pystr) (d : list (pystr * pyval)) : option pyval :=
  match d with
  | [] => None
  | (k', v) :: d' => if str_eqb k k' then Some v else dict_get k d'
  end.

(** [k in d]. *)
Definition has_key (k : pystr) (d : list (pystr * pyval)) : bool :=
  match dict_get k d with
  | Some _ => true
  | None => false
  end.

(** [d[k] = v]: an existing key keeps its position. *)
Fixpoint dict_set (d : list (pystr * pyval)) (k : pystr) (v : pyval)
  : list (pystr * pyval) :=
  match d with
  | [] => [(k, v)]
  | (k', v') :: d' =>
      if str_eqb k k' then (k', v) :: d' else (k', v') :: dict_set d' k v
  end.

(** [dict(pairs)]. *)
Definition dict_of_pairs (pairs : list (pystr * pyval))
  : list (pystr * pyval) :=
  fold_left (fun d kv => dict_set d (fst kv) (snd kv)) pairs [].

Fixpoint attr_get (name : string) (a : list (string * pyval))
  : option pyval :=
  match a with
  | [] => None
  | (n, v) :: a' => if String.eqb name n then Some v else attr_get name a'
  end.

(** The data attributes of a value.  Of the names the source reads
    ([tool], [tool_input], [log], [tool_calls], [type], [content],
    [tool_call_id], [name]) the built-in types have none. *)
Definition attrs_of (v : pyval) : list (string * pyval) :=
  match v with
  | PObj a => a
  | _ => []
  end.

(** [hasattr(v, name)]. *)
Definition hasattr (v : pyval) (name : string) : bool :=
  match attr_get name (attrs_of v) with
  | Some _ => true
  | None => false
  end.

(** [v.name]. *)
Definition getattr (v : pyval) (name : string) : res pyval :=
  match attr_get name (attrs_of v) with
  | Some x => ok x
  | None => raise AttributeError
  end.

(** [getattr(v, name, default)]. *)
Definition getattr_default (v : pyval) (name : string) (default : pyval)
  : pyval :=
  match attr_get name (attrs_of v) with
  | Some x => x
  | None => default
  end.

(** [bool(v)]. *)
Definition truthy (v : pyval) : bool :=
  match v with
  | PNone => false
  | PBool b => b
  | PInt z => negb (Z.eqb z 0)
  | PFloat (FDec _ d _) => negb (N.eqb d 0)
  | PFloat _ => true
  | PStr s => negb (Nat.eqb (length s) 0)
  | PList l => negb (Nat.eqb (length l) 0)
  | PTuple l => negb (Nat.eqb (length l) 0)
  | PDict d => negb (Nat.eqb (length d) 0)
  | PObj _ => true
  end.

(** [len(v)]. *)
Definition len (v : pyval) : res nat :=
  match v with
  | PStr s => ok (length s)
  | PList l => ok (length l)
  | PTuple l => ok (length l)
  | PDict d => ok (length d)
  | _ => raise TypeError
  end.

(** [list(iter(v))]: what a [for] loop over [v] visits. *)
Definition iter (v : pyval) : res (list pyval) :=
  match v with
  | PList l => ok l
  | PTuple l => ok l
  | PStr s => ok (List.map (fun c => PStr [c]) s)
  | PDict d => ok (List.map (fun kv => PStr (fst kv)) d)
  | _ => raise TypeError
  end.

(** [v[0]] for a [v] that [len] accepted with a positive length. *)
Definition getitem_first (v : pyval) : res pyval :=
  match v with
  | PList (x :: _) => ok x
  | PTuple (x :: _) => ok x
  | PStr (c :: _) => ok (PStr [c])
  | PList [] | PTuple [] | PStr [] => raise IndexError
  | PDict _ => raise KeyError
  | _ => raise TypeError
  end.

(** [v[-1]]. *)
Definition getitem_last (v : pyval) : res pyval :=
  match v with
  | PList l | PTuple l =>
      match rev l with
      | x :: _ => ok x
      | [] => raise IndexError
      end
  | PStr s =>
      match rev s with
      | c :: _ => ok (PStr [c])
      | [] => raise IndexError
      end
  | PDict _ => raise KeyError
  | _ => raise TypeError
  end.

(** [a, b = v]. *)
Definition unpack2 (v : pyval) : res (pyval * pyval) :=
  bind (iter v) (fun l =>
    match l with
    | [a; b] => ok (a, b)
    | _ => raise ValueError
    end).

(** Numbers, for [==] across [bool], [int] and [float]. *)
Inductive num : Type :=
| NumNaN
| NumInf (neg : bool)
| NumDec (m : Z) (e : Z).

Definition as_num (v : pyval) : option num :=
  match v with
  | PBool b => Some (NumDec (if b then 1 else 0) 0)
  | PInt z => Some (NumDec z 0)
  | PFloat FNaN => Some NumNaN
  | PFloat (FInf s) => Some (NumInf s)
  | PFloat (FDec s d e) =>
      Some (NumDec (if s then Z.opp (Z.of_N d) else Z.of_N d) e)
  | _ => None
  end.

Definition num_eqb (a b : num) : bool :=
  match a, b with
  | NumInf s, NumInf t => Bool.eqb s t
  | NumDec m e, NumDec m' e' =>
      let lo := Z.min e e' in
      Z.eqb (m * 10 ^ (e - lo)) (m' * 10 ^ (e' - lo))
  | _, _ => false
  end.

(** [a == b].  Objects compare by their attributes, as the data classes
    of the agent framework do. *)
Fixpoint py_eq (a b : pyval) {struct a} : bool :=
  match as_num a, as_num b with
  | Some x, Some y => num_eqb x y
  | _, _ =>
      match a, b with
      | PNone, PNone => true
      | PStr s, PStr t => str_eqb s t
      | PList l, PList m | PTuple l, PTuple m =>
          (fix go (l m : list pyval) : bool :=
             match l, m with
             | [], [] => true
             | x :: l', y :: m' => py_eq x y && go l' m'
             | _, _ => false
             end) l m
      | PDict d, PDict e =>
          Nat.eqb (length d) (length e) &&
          (fix go (d : list (pystr * pyval)) : bool :=
             match d with
             | [] => true
             | kv :: d' =>
                 match dict_get (fst kv) e with
                 | Some w => py_eq (snd kv) w
                 | None => false
                 end && go d'
             end) d
      | PObj d, PObj e =>
          Nat.eqb (length d) (length e) &&
          (fix go (d : list (string * pyval)) : bool :=
             match d with
             | [] => true
             | kv :: d' =>
                 match attr_get (fst kv) e with
                 | Some w => py_eq (snd kv) w
                 | None => false
                 end && go d'
             end) d
      | _, _ => false
      end
  end.

(** Whether [hash(v)] succeeds. *)
Fixpoint hashable (v : pyval) : bool :=
  match v with
  | PList _ | PDict _ => false
  | PTuple l =>
      (fix go (l : list pyval) : bool :=
         match l with
         | [] => true
         | x :: l' => hashable x && go l'
         end) l
  | _ => true
  end.

(** [item in container]. *)
Definition contains (item container : pyval) : res bool :=
  match container with
  | PStr s =>
      match item with
      | PStr p => ok (str_contains p s)
      | _ => raise TypeError
      end
  | PList l | PTuple l => ok (existsb (py_eq item) l)
  | PDict d =>
      if hashable item then
        match item with
        | PStr k => ok (has_key k d)
        | _ => ok false
        end
      else raise TypeError
  | _ => raise TypeError
  end.

(** [isinstance(v, (dict, list))]. *)
Definition is_dict_or_list (v : pyval) : bool :=
  match v with
  | PDict _ | PList _ => true
  | _ => false
  end.

End Py.

(* ===================================================================== *)
(** * The [json] package                                                  *)
(* ===================================================================== *)

Module Json.
Import Py.

(** [WHITESPACE] of [json.decoder]: space, tab, line feed and carriage
    return. *)
Definition ws (c : N) : bool :=
  ((c =? 32) || (c =? 9) || (c =? 10) || (c =? 13))%N.

Fixpoint skip_ws (s : pystr) : pystr :=
  match s with
  | c :: r => if ws c then skip_ws r else s
  | [] => []
  end.

Definition is_digit (c : N) : bool := ((48 <=? c) && (c <=? 57))%N.

Definition hex_val (c : N) : option N :=
  if is_digit c then Some (c - 48)%N
  else if ((97 <=? c) && (c <=? 102))%N then Some (c - 87)%N
  else if ((65 <=? c) && (c <=? 70))%N then Some (c - 55)%N
  else None.

(** The four hexadecimal digits of a [\uXXXX] escape. *)
Definition hex4 (a b c d : N) : option N :=
  match hex_val a, hex_val b, hex_val c, hex_val d with
  | Some x, Some y, Some z, Some w =>
      Some (((x * 16 + y) * 16 + z) * 16 + w)%N
  | _, _, _, _ => None
  end.

(** The [BACKSLASH] table of [json.decoder]. *)
Definition unescape (c : N) : option N :=
  if N.eqb c dquote then Some dquote
  else if N.eqb c backslash then Some backslash
  else if N.eqb c (ch "/") then Some (ch "/")
  else if N.eqb c (ch "b") then Some 8%N
  else if N.eqb c (ch "f") then Some 12%N
  else if N.eqb c (ch "n") then Some 10%N
  else if N.eqb c (ch "r") then Some 13%N
  else if N.eqb c (ch "t") then Some 9%N
  else None.

Definition high_surrogate (u : N) : bool :=
  ((55296 <=? u) && (u <=? 56319))%N.
Definition low_surrogate (u : N) : bool :=
  ((56320 <=? u) && (u <=? 57343))%N.
Definition join_surrogates (hi lo : N) : N :=
  (65536 + N.lor (N.shiftl (hi - 55296) 10) (lo - 56320))%N.

Definition push (c : N) (r : option (pystr * pystr))
  : option (pystr * pystr) :=
  match r with
  | Some (str, rest) => Some (c :: str, rest)
  | None => None
  end.

(** [scanstring(s, end, strict=True)], entered after the opening quote:
    the decoded string and the text after the closing quote; [None] is a
    [JSONDecodeError]. *)
Fixpoint scanstring (s : pystr) : option (pystr * pystr) :=
  match s with
  | [] => None
  | c :: r =>
      if N.eqb c dquote then Some ([], r)
      else if N.eqb c backslash then
        match r with
        | [] => None
        | e :: r1 =>
            if N.eqb e (ch "u") then
              match r1 with
              | h1 :: h2 :: h3 :: h4 :: r2 =>
                  match hex4 h1 h2 h3 h4 with
                  | None => None
                  | Some uni =>
                      match r2 with
                      | b :: u :: g1 :: g2 :: g3 :: g4 :: r4 =>
                          if high_surrogate uni && N.eqb b backslash
                             && N.eqb u (ch "u")
                          then
                            match hex4 g1 g2 g3 g4 with
                            | None => None
                            | Some uni2 =>
                                if low_surrogate uni2
                                then push (join_surrogates uni uni2)
                                          (scanstring r4)
                                else push uni (scanstring r2)
                            end
                          else push uni (scanstring r2)
                      | _ => push uni (scanstring r2)
                      end
                  end
              | _ => None
              end
            else
              match unescape e with
              | Some x => push x (scanstring r1)
              | None => None
              end
        end
      else if (c <? 32)%N then None
      else push c (scanstring r)
  end.

(** The longest prefix of digits. *)
Fixpoint take_digits (s : pystr) : pystr * pystr :=
  match s with
  | c :: r =>
      if is_digit c
      then let '(ds, rest) := take_digits r in (c :: ds, rest)
      else ([], s)
  | [] => ([], [])
  end.

Definition digits_val (ds : pystr) : N :=
  fold_left (fun acc d => (acc * 10 + (d - 48))%N) ds 0%N.

(** The integer part of [NUMBER_RE]: an optional minus sign, then a
    single zero or a non-zero digit followed by digits. *)
Definition number_int (s : pystr) : option (bool * pystr * pystr) :=
  let '(neg, s1) :=
    match s with
    | c :: r => if N.eqb c (ch "-") then (true, r) else (false, s)
    | [] => (false, s)
    end in
  match s1 with
  | [] => None
  | c :: r =>
      if N.eqb c (ch "0") then Some (neg, [c], r)
      else if is_digit c
      then let '(ds, rest) := take_digits r in Some (neg, c :: ds, rest)
      else None
  end.

(** The optional fraction of [NUMBER_RE]: a dot and at least one digit. *)
Definition number_frac (s : pystr) : option (pystr * pystr) :=
  match s with
  | c :: r =>
      if N.eqb c (ch ".") then
        match take_digits r with
        | ([], _) => None
        | (fs, rest) => Some (fs, rest)
        end
      else None
  | [] => None
  end.

(** The optional exponent of [NUMBER_RE]: [e] or [E], an optional sign
    and at least one digit. *)
Definition number_exp (s : pystr) : option (Z * pystr) :=
  match s with
  | c :: r =>
      if N.eqb c (ch "e") || N.eqb c (ch "E") then
        let '(eneg, r1) :=
          match r with
          | sg :: r' =>
              if N.eqb sg (ch "-") then (true, r')
              else if N.eqb sg (ch "+") then (false, r')
              else (false, r)
          | [] => (false, r)
          end in
        match take_digits r1 with
        | ([], _) => None
        | (es, rest) =>
            let e := Z.of_N (digits_val es) in
            Some (if eneg then Z.opp e else e, rest)
        end
      else None
  | [] => None
  end.

(** [match_number] and the conversion of its groups: an [int] when there
    is neither fraction nor exponent, a [float] otherwise. *)
Definition match_number (s : pystr) : option (pyval * pystr) :=
  match number_int s with
  | None => None
  | Some (neg, ids, r1) =>
      let frac := number_frac r1 in
      let r2 := match frac with Some (_, r) => r | None => r1 end in
      let exp := number_exp r2 in
      let r3 := match exp with Some (_, r) => r | None => r2 end in
      match frac, exp with
      | None, None =>
          let n := Z.of_N (digits_val ids) in
          Some (PInt (if neg then Z.opp n else n), r3)
      | _, _ =>
          let fs := match frac with Some (f, _) => f | None => [] end in
          let e := match exp with Some (e, _) => e | None => 0%Z end in
          Some (PFloat (FDec neg (digits_val (ids ++ fs))
                             (e - Z.of_nat (length fs))), r3)
      end
  end.

(** [scan_once] of [json.scanner] with [JSONObject] and [JSONArray] of
    [json.decoder]: the value at the head of [s] and the text after it.
    [None] is a [JSONDecodeError] ([StopIteration] inside the scanner).
    [fuel] bounds the nesting of calls.  [object_items] is entered after
    the opening quote of a key, [array_items] at the start of a value. *)
Fixpoint scan_once (fuel : nat) (s : pystr) {struct fuel}
  : option (pyval * pystr) :=
  match fuel with
  | O => None
  | S fuel' =>
      match s with
      | [] => None
      | c :: r =>
          if N.eqb c dquote then
            match scanstring r with
            | Some (str, rest) => Some (PStr str, rest)
            | None => None
            end
          else if N.eqb c (ch "{") then
            match skip_ws r with
            | c1 :: r1 =>
                if N.eqb c1 (ch "}") then Some (PDict [], r1)
                else if N.eqb c1 dquote then
                  match object_items fuel' r1 with
                  | Some (pairs, rest) =>
                      Some (PDict (dict_of_pairs pairs), rest)
                  | None => None
                  end
                else None
            | [] => None
            end
          else if N.eqb c (ch "[") then
            match skip_ws r with
            | c1 :: r1 =>
                if N.eqb c1 (ch "]") then Some (PList [], r1)
                else
                  match array_items fuel' (c1 :: r1) with
                  | Some (values, rest) => Some (PList values, rest)
                  | None => None
                  end
            | [] => None
            end
          else if startswith (lit "null") s then Some (PNone, skipn 4 s)
          else if startswith (lit "true") s
          then Some (PBool true, skipn 4 s)
          else if startswith (lit "false") s
          then Some (PBool false, skipn 5 s)
          else
            match match_number s with
            | Some r => Some r
            | None =>
                if startswith (lit "NaN") s
                then Some (PFloat FNaN, skipn 3 s)
                else if startswith (lit "Infinity") s
                then Some (PFloat (FInf false), skipn 8 s)
                else if startswith (lit "-Infinity") s
                then Some (PFloat (FInf true), skipn 9 s)
                else None
            end
      end
  end

with object_items (fuel : nat) (s : pystr) {struct fuel}
  : option (list (pystr * pyval) * pystr) :=
  match fuel with
  | O => None
  | S fuel' =>
      match scanstring s with
      | None => None
      | Some (key, r1) =>
          match skip_ws r1 with
          | c :: r2 =>
              if N.eqb c (ch ":") then
                match scan_once fuel' (skip_ws r2) with
                | None => None
                | Some (value, r3) =>
                    match skip_ws r3 with
                    | c' :: r4 =>
                        if N.eqb c' (ch "}") then Some ([(key, value)], r4)
                        else if N.eqb c' (ch ",") then
                          match skip_ws r4 with
                          | q :: r5 =>
                              if N.eqb q dquote then
                                match object_items fuel' r5 with
                                | Some (pairs, rest) =>
                                    Some ((key, value) :: pairs, rest)
                                | None => None
                                end
                              else None
                          | [] => None
                          end
                        else None
                    | [] => None
                    end
                end
              else None
          | [] => None
          end
      end
  end

with array_items (fuel : nat) (s : pystr) {struct fuel}
  : option (list pyval * pystr) :=
  match fuel with
  | O => None
  | S fuel' =>
      match scan_once fuel' s with
      | None => None
      | Some (value, r1) =>
          match skip_ws r1 with
          | c :: r2 =>
              if N.eqb c (ch "]") then Some ([value], r2)
              else if N.eqb c (ch ",") then
                match array_items fuel' (skip_ws r2) with
                | Some (values, rest) => Some (value :: values, rest)
                | None => None
                end
              else None
          | [] => None
          end
      end
  end.

(** [json.loads(s)] for a [str]: [JSONDecoder.decode], which skips the
    leading whitespace, scans one value and accepts only whitespace after
    it.  [None] is a [JSONDecodeError]. *)
Definition loads (s : pystr) : option pyval :=
  match scan_once (S (length s)) (skip_ws s) with
  | Some (v, rest) =>
      match skip_ws rest with
      | [] => Some v
      | _ :: _ => None
      end
  | None => None
  end.

(** Whether [json.dumps(v, indent=2)] returns: it raises [TypeError] on an
    object of a class it does not know. *)
Fixpoint serializable (v : pyval) : bool :=
  match v with
  | PObj _ => false
  | PList l | PTuple l =>
      (fix go (l : list pyval) : bool :=
         match l with
         | [] => true
         | x :: l' => serializable x && go l'
         end) l
  | PDict d =>
      (fix go (d : list (pystr * pyval)) : bool :=
         match d with
         | [] => true
         | kv :: d' => serializable (snd kv) && go d'
         end) d
  | _ => true
  end.

End Json.

(* ===================================================================== *)
(** * What is handed to [rich]                                            *)
(* ===================================================================== *)

Module Rich.
Import Py.

(** A piece of an f-string or of a text built by the source: a literal of
    the source, a value formatted by [str()] (as [f"{v}"] and [str(v)]
    do), or the text [json.dumps(v, indent=2)] returned. *)
Inductive fpart : Type :=
| FLit (s : string)
| FVal (v : pyval)
| FDumps (v : pyval).

Definition text := list fpart.

(** The line feed of the source's literals. *)
Definition nl : string := String (ascii_of_nat 10) EmptyString.

Inductive box : Type := ROUNDED | HEAVY | MINIMAL.

Inductive renderable : Type :=
| Str (t : text)
| Panel (body : text) (style : string) (bx : box) (expand : bool)
        (title : option string) (title_align : string)
| Syntax (code : text) (lexer theme : string) (word_wrap : bool)
| Markdown (markup : pystr)
| JSON_from_data (data : pyval)
| Pretty (obj : pyval) (overflow : string).

(** A [Tree] as it stands when it is printed. *)
Unset Elimination Schemes.
Inductive tree : Type :=
| Tree (label : renderable) (children : list tree).
Set Elimination Schemes.

(** One call of [console.print]. *)
Inductive event : Type :=
| PrintBlank
| Print (r : renderable)
| PrintTree (t : tree).

(** A procedure of the renderer: what it printed, and how it ended. *)
Definition io (A : Type) : Type := (list event * res A)%type.

Definition ret {A} (a : A) : io A := ([], ok a).

Definition seq {A B} (m : io A) (k : A -> io B) : io B :=
  match m with
  | (ev, inl e) => (ev, inl e)
  | (ev, inr a) => let '(ev', r) := k a in (ev ++ ev', r)
  end.

Definition lift {A} (r : res A) : io A := ([], r).

Definition console_print (e : event) : io unit := ([e], ok tt).

(** The events of a run, and whether it returned. *)
Definition events {A} (m : io A) : list event := fst m.
Definition returns {A} (m : io A) : bool :=
  match snd m with
  | inr _ => true
  | inl _ => false
  end.

(** A [for] loop with a counter, as [enumerate(items, start)] gives. *)
Fixpoint for_enumerate {A} (start : Z) (items : list A)
         (body : Z -> A -> io unit) : io unit :=
  match items with
  | [] => ret tt
  | x :: items' =>
      seq (body start x) (fun _ => for_enumerate (start + 1) items' body)
  end.

Fixpoint for_each {A} (items : list A) (body : A -> io unit) : io unit :=
  match items with
  | [] => ret tt
  | x :: items' => seq (body x) (fun _ => for_each items' body)
  end.

(** A loop that only computes: the results in order, or the first
    exception. *)
Fixpoint map_res {A B} (f : A -> res B) (l : list A) : res (list B) :=
  match l with
  | [] => ok []
  | x :: l' =>
      bind (f x) (fun y => bind (map_res f l') (fun ys => ok (y :: ys)))
  end.

End Rich.

Declare Scope io_scope.
Delimit Scope io_scope with io.
Notation "x <- m ;; k" := (Rich.seq m (fun x => k))
  (at level 61, m at next level, right associativity) : io_scope.
Notation "m ;; k" := (Rich.seq m (fun _ => k))
  (at level 61, right associativity) : io_scope.

Declare Scope res_scope.
Delimit Scope res_scope with res.
Notation "x <- m ;; k" := (Py.bind m (fun x => k))
  (at level 61, m at next level, right associativity) : res_scope.

(* ===================================================================== *)
(** * agent_display.py                                                    *)
(* ===================================================================== *)

Module AgentDisplay.
Import Py Rich.

(** A comprehension whose items may fail. *)
Fixpoint map_opt {A B} (f : A -> option B) (l : list A)
  : option (list B) :=
  match l with
  | [] => Some []
  | x :: l' =>
      match f x, map_opt f l' with
      | Some y, Some ys => Some (y :: ys)
      | _, _ => None
      end
  end.

(** The test of lines 36-38: the stripped string starts and ends with
    matching brackets. *)
Definition looks_like_json (data : pystr) : bool :=
  let stripped := strip data in
  (startswith (lit "{") stripped && endswith (lit "}") stripped)
  || (startswith (lit "[") stripped && endswith (lit "]") stripped).

(** [recursive_json_clean] run with at most [depth] nested calls: [None]
    when the nesting of calls would exceed [depth].  A [dict] has distinct
    keys, so the comprehension keeps its items in place. *)
Fixpoint recursive_json_clean_depth (depth : nat) (data : pyval)
  : option pyval :=
  match depth with
  | O => None
  | S depth' =>
      match data with
      | PDict d =>
          option_map PDict
            (map_opt (fun kv =>
                        option_map (pair (fst kv))
                          (recursive_json_clean_depth depth' (snd kv))) d)
      | PList l =>
          option_map PList (map_opt (recursive_json_clean_depth depth') l)
      | PStr s =>
          if looks_like_json s then
            match Json.loads s with
            | Some parsed => recursive_json_clean_depth depth' parsed
            | None => Some data
            end
          else Some data
      | _ => Some data
      end
  end.

(** A bound on the nesting of calls [recursive_json_clean] makes on a
    value: its containers, items and the characters of its strings. *)
Fixpoint weight (v : pyval) : nat :=
  match v with
  | PStr s => S (length s)
  | PList l =>
      S ((fix go (l : list pyval) : nat :=
            match l with
            | [] => 0
            | x :: l' => weight x + go l'
            end) l)
  | PDict d =>
      S ((fix go (d : list (pystr * pyval)) : nat :=
            match d with
            | [] => 0
            | kv :: d' => weight (snd kv) + go d'
            end) d)
  | _ => 1
  end.

(** The sums [weight] takes over the items of a container. *)
Definition weights (l : list pyval) : nat := list_sum (map weight l).
Definition weights_of (d : list (pystr * pyval)) : nat :=
  list_sum (map (fun kv => weight (snd kv)) d).

(** [recursive_json_clean(data)]. *)
Definition recursive_json_clean (data : pyval) : pyval :=
  match recursive_json_clean_depth (weight data) data with
  | Some v => v
  | None => data
  end.


(** [json.dumps(v, indent=2)]: its text, or [TypeError]. *)
Definition json_dumps (v : pyval) : res text :=
  if Json.serializable v then ok [FDumps v] else raise TypeError.

Local Open Scope string_scope.

(** The literals of the source that open a panel or label a tree. *)
Definition input_heading : string := "[bold]User Input:[/bold]" ++ nl.
Definition step_heading : string := "[bold]Step ".
Definition invoke_heading : string := "[bold]Invoke: ".
Definition result_heading : string := "[bold]Result[/bold] [dim](".
Definition final_heading : string := "[bold]🤖 Final Answer:[/bold]".
Definition end_heading : string := "End of Interaction".

Definition print_header (text : string) (style : string) : io unit :=
  (console_print PrintBlank ;;
   console_print (Print (Panel [FLit text] style HEAVY false None "center")))%io.

Definition print_input (input_data : pyval) : io unit :=
  (content <-
     lift (match input_data with
           | PDict d =>
               let a := match dict_get (lit "input") d with
                        | Some v => v | None => PNone end in
               let b := match dict_get (lit "query") d with
                        | Some v => v | None => PNone end in
               if truthy a then ok [FVal a]
               else if truthy b then ok [FVal b]
               else json_dumps input_data
           | _ => ok [FVal input_data]
           end) ;;
   console_print
     (Print (Panel (FLit input_heading :: content)
                   "green" ROUNDED true (Some "START") "left")))%io.

Definition _render_json_or_text (data : pyval) (style : string)
  : renderable :=
  let clean_data := recursive_json_clean data in
  let fallback := Str [FVal clean_data] in
  if is_dict_or_list clean_data then
    match json_dumps clean_data with
    | inr text => Syntax text "json" style true
    | inl _ => fallback
    end
  else fallback.

(** The log line of a step (lines 93-98): the nodes it adds to the tree. *)
Definition log_nodes (tool_name log_content : pyval) : res (list tree) :=
  if truthy log_content then
    (has_nl <- contains (PStr [newline]) log_content ;;
     clean_log <-
       (if has_nl : bool then
          match log_content with
          | PStr s => ok (PStr (first_line s))
          | _ => raise AttributeError
          end
        else ok log_content) ;;
     in_log <- contains tool_name clean_log ;;
     ok (if in_log : bool then []
         else [Tree (Str [FLit "[italic dim]Log: "; FVal clean_log;
                          FLit "[/italic dim]"]) []]))%res
  else ok [].

(** The body of the loop of [print_intermediate_steps] (lines 84-103). *)
Definition print_step (i : Z) (step : pyval) : io unit :=
  (unpacked <- lift (unpack2 step) ;;
   let '(action, observation) := unpacked in
   let tool_name := getattr_default action "tool" (PStr (lit "Unknown Tool")) in
   let tool_input := getattr_default action "tool_input" (PStr []) in
   let input_node :=
     Tree (Str [FLit "[cyan]Input:[/cyan]"])
          [Tree (_render_json_or_text tool_input "monokai") []] in
   let log_content := getattr_default action "log" (PStr []) in
   nodes <- lift (log_nodes tool_name log_content) ;;
   let observation_node :=
     Tree (Str [FLit "[green]Observation:[/green]"])
          [Tree (_render_json_or_text observation "monokai") []] in
   console_print
     (PrintTree
        (Tree (Str [FLit step_heading; FVal (PInt i); FLit ": ";
                    FVal tool_name; FLit "[/bold]"])
              (input_node :: nodes ++ [observation_node]))) ;;
   console_print (Print (Str [FLit ""])))%io.

Definition executor_banner : string :=
  nl ++ "[bold yellow]🛠️  Tool Execution History (Executor):[/bold yellow]".

Definition print_intermediate_steps (intermediate_steps : pyval) : io unit :=
  if negb (truthy intermediate_steps) then ret tt
  else
    (console_print (Print (Str [FLit executor_banner])) ;;
     steps <- lift (iter intermediate_steps) ;;
     for_enumerate 1 steps print_step)%io.

(** An entry of [tool_sequence]: the dictionaries of lines 115-120 and
    123-128, told apart by their ["type"]. *)
Inductive seq_item : Type :=
| CallItem (name args id : pyval)
| ResultItem (content id name : pyval).

(** [call.get(key)]. *)
Definition call_get (call : pyval) (key : pystr) : res pyval :=
  match call with
  | PDict d =>
      ok (match dict_get key d with Some v => v | None => PNone end)
  | PObj a =>
      match attr_get "get" a with
      | Some _ => raise TypeError
      | None => raise AttributeError
      end
  | _ => raise AttributeError
  end.

Definition call_item (call : pyval) : res seq_item :=
  (name <- call_get call (lit "name") ;;
   args <- call_get call (lit "args") ;;
   id <- call_get call (lit "id") ;;
   ok (CallItem name args id))%res.

(** What one message appends to [tool_sequence] (lines 113-128). *)
Definition message_items (msg : pyval) : res (list seq_item) :=
  if hasattr msg "tool_calls"
     && truthy (getattr_default msg "tool_calls" PNone)
  then
    (calls <- iter (getattr_default msg "tool_calls" PNone) ;;
     map_res call_item calls)%res
  else
    (ty <- getattr msg "type" ;;
     if py_eq ty (PStr (lit "tool")) then
       (content <- getattr msg "content" ;;
        id <- getattr msg "tool_call_id" ;;
        name <- getattr msg "name" ;;
        ok [ResultItem content id name])
     else ok [])%res.

(** The first loop of [print_message_history] (lines 111-128). *)
Definition tool_sequence_of (messages : list pyval) : res (list seq_item) :=
  (chunks <- map_res message_items messages ;; ok (concat chunks))%res.

(** The body of its second loop (lines 135-147). *)
Definition print_item (item : seq_item) : io unit :=
  match item with
  | CallItem name args id =>
      console_print
        (PrintTree
           (Tree (Str [FLit invoke_heading; FVal name;
                       FLit "[/bold] [dim]("; FVal id; FLit ")[/dim]"])
                 [Tree (Str [FLit "[cyan]Args:[/cyan]"])
                       [Tree (_render_json_or_text args "monokai") []]]))
  | ResultItem content id name =>
      (console_print
         (PrintTree
            (Tree (Str [FLit result_heading; FVal id;
                        FLit ")[/dim]"])
                  [Tree (Str [FLit "[green]Output:[/green]"])
                        [Tree (_render_json_or_text content "monokai") []]])) ;;
       console_print (Print (Str [FLit ""])))%io
  end.

Definition messages_banner : string :=
  nl ++ "[bold yellow]🔗 Message History (v1.0 Standard):[/bold yellow]".

Definition print_message_history (messages : pyval) : io unit :=
  (msgs <- lift (iter messages) ;;
   tool_sequence <- lift (tool_sequence_of msgs) ;;
   match tool_sequence with
   | [] => ret tt
   | _ :: _ =>
       console_print (Print (Str [FLit messages_banner])) ;;
       for_each tool_sequence print_item
   end)%io.

(** [JSON.from_data] serializes its argument with [json.dumps] and so
    raises [TypeError] on the values [json.dumps] rejects. *)
Definition print_final_answer (output : pyval) : io unit :=
  (console_print
     (Print (Panel [FLit final_heading] "magenta" MINIMAL
                   true None "center")) ;;
   let content := getattr_default output "content" output in
   match content with
   | PStr s => console_print (Print (Markdown s))
   | PDict _ =>
       _ <- lift (json_dumps content) ;;
       console_print (Print (JSON_from_data content))
   | _ => console_print (Print (Str [FVal content]))
   end ;;
   console_print
     (Print (Panel [FLit end_heading] "dim" ROUNDED true
                   (Some "END") "right")))%io.

(** [len(response["messages"]) > 0]. *)
Definition nonempty (v : pyval) : res bool :=
  (n <- len v ;; ok (Nat.ltb 0 n))%res.

(** Step 1 of [visualize_agent_response] (lines 172-176). *)
Definition show_input (response : list (pystr * pyval)) : io unit :=
  match dict_get (lit "input") response with
  | Some input => print_input input
  | None =>
      match dict_get (lit "messages") response with
      | Some messages =>
          (some <- lift (nonempty messages) ;;
           if some : bool then
             content <- lift (first <- getitem_first messages ;;
                              getattr first "content")%res ;;
             print_input content
           else ret tt)%io
      | None => ret tt
      end
  end.

Definition no_history_notice : string :=
  "[dim]No tool execution history found.[/dim]" ++ nl.

(** Step 2 (lines 178-184). *)
Definition show_history (response : list (pystr * pyval)) : io unit :=
  match dict_get (lit "intermediate_steps") response with
  | Some steps => print_intermediate_steps steps
  | None =>
      match dict_get (lit "messages") response with
      | Some messages => print_message_history messages
      | None => console_print (Print (Str [FLit no_history_notice]))
      end
  end.

(** Step 3 (lines 186-190). *)
Definition show_output (response : list (pystr * pyval)) : io unit :=
  match dict_get (lit "output") response with
  | Some output => print_final_answer output
  | None =>
      match dict_get (lit "messages") response with
      | Some messages =>
          (some <- lift (nonempty messages) ;;
           if some : bool then
             last <- lift (getitem_last messages) ;;
             print_final_answer last
           else ret tt)%io
      | None => ret tt
      end
  end.

Definition raw_banner : string :=
  nl ++ "[bold red]🔍 Raw Response Structure:[/bold red]".

(** Step 4 (lines 192-196). *)
Definition show_debug (response : list (pystr * pyval)) (show_raw : bool)
  : io unit :=
  if show_raw then
    (console_print (Print (Str [FLit raw_banner])) ;;
     console_print (Print (Pretty (PDict response) "fold")))%io
  else ret tt.

Definition visualize_agent_response
           (response : list (pystr * pyval)) (show_raw : bool) : io unit :=
  (print_header "LangChain v1.0 Agent Report" "bold cyan" ;;
   show_input response ;;
   show_history response ;;
   show_output response ;;
   show_debug response show_raw)%io.

(* ------------------------------------------------------------------- *)
(** ** Reading the printed report                                       *)
(* ------------------------------------------------------------------- *)

(** The panel [print_input] prints. *)
Definition is_input_panel (e : event) : bool :=
  match e with
  | Print (Panel (FLit s :: _) _ _ _ (Some t) _) =>
      String.eqb s input_heading && String.eqb t "START"
  | _ => false
  end.

(** The two panels [print_final_answer] prints. *)
Definition is_final_answer_panel (e : event) : bool :=
  match e with
  | Print (Panel [FLit s] _ _ _ _ _) =>
      String.eqb s final_heading
      || String.eqb s end_heading
  | _ => false
  end.

(** What the legacy branch prints: its banner and its [Step] trees. *)
Definition is_executor_event (e : event) : bool :=
  match e with
  | Print (Str [FLit s]) => String.eqb s executor_banner
  | PrintTree (Tree (Str (FLit s :: _)) _) => String.eqb s step_heading
  | _ => false
  end.

Definition is_invoke_tree (e : event) : bool :=
  match e with
  | PrintTree (Tree (Str (FLit s :: _)) _) => String.eqb s invoke_heading
  | _ => false
  end.

Definition is_result_tree (e : event) : bool :=
  match e with
  | PrintTree (Tree (Str (FLit s :: _)) _) =>
      String.eqb s result_heading
  | _ => false
  end.

(** What the message branch prints: its banner and its trees. *)
Definition is_messages_event (e : event) : bool :=
  match e with
  | Print (Str [FLit s]) => String.eqb s messages_banner
  | _ => is_invoke_tree e || is_result_tree e
  end.

(** A tool-history section: what either branch prints. *)
Definition is_history_event (e : event) : bool :=
  is_executor_event e || is_messages_event e.

(* ------------------------------------------------------------------- *)
(** ** The shapes the renderer relies on                                *)
(* ------------------------------------------------------------------- *)





(** A log the renderer can show: a string, next to a tool name that is
    a string, or nothing to show. *)
Definition showable_log (tool_name log_content : pyval) : bool :=
  match log_content with
  | PStr [] => true
  | PStr (_ :: _) =>
      match tool_name with
      | PStr _ => true
      | _ => false
      end
  | _ => negb (truthy log_content)
  end.

(** A step: a pair whose action has a log that can be shown.  [tool],
    [tool_input] and [log] may be absent. *)
Definition well_formed_step (s : pyval) : bool :=
  match s with
  | PList [action; _] | PTuple [action; _] =>
      showable_log (getattr_default action "tool" (PStr (lit "Unknown Tool")))
                   (getattr_default action "log" (PStr []))
  | _ => false
  end.



(* ------------------------------------------------------------------- *)
(** ** Reading more of the report                                       *)
(* ------------------------------------------------------------------- *)

(** The number a [Step] tree carries in its label. *)
Definition step_number (e : event) : option Z :=
  match e with
  | PrintTree (Tree (Str (FLit s :: FVal (PInt i) :: _)) _) =>
      if String.eqb s step_heading then Some i else None
  | _ => None
  end.

Definition step_numbers (report : list event) : list Z :=
  flat_map (fun e => match step_number e with
                     | Some i => [i]
                     | None => []
                     end) report.



(** The part of the report an event belongs to: 0 the header, 1 the
    input panel, 2 the tool history (banners, trees, the empty lines
    after them, the notice that there is none), 3 the final answer, 4 the
    raw dump. *)
Definition section_rank (e : event) : nat :=
  match e with
  | PrintBlank => 0
  | Print (Panel body _ _ _ title _) =>
      if is_input_panel e then 1
      else if is_final_answer_panel e then 3
      else 0
  | Print (Str [FLit s]) => if String.eqb s raw_banner then 4 else 2
  | Print (Str _) => 3
  | Print (Markdown _) => 3
  | Print (JSON_from_data _) => 3
  | Print (Syntax _ _ _ _) => 3
  | Print (Pretty _ _) => 4
  | PrintTree _ => 2
  end.


(** The numbers [enumerate(items, start)] hands out. *)
Definition enumerate_from (start : Z) (n : nat) : list Z :=
  map (fun k => (start + Z.of_nat k)%Z) (List.seq 0 n).

Fixpoint nondecreasing (l : list nat) : bool :=
  match l with
  | a :: ((b :: _) as l') => Nat.leb a b && nondecreasing l'
  | _ => true
  end.

End AgentDisplay.

(* ===================================================================== *)
(** * Sample records                                                      *)
(* ===================================================================== *)

Module Samples.
Import Py Rich AgentDisplay.
Local Open Scope string_scope.
Local Open Scope list_scope.

(** A JSON object whose value is itself a JSON text: the case of the
    docstring of [recursive_json_clean] (lines 25-26). *)
Definition nested_sample : pystr :=
  lit "{" ++ [dquote] ++ lit "ids" ++ [dquote] ++ lit ": " ++ [dquote]
      ++ lit "[1, 2]" ++ [dquote] ++ lit "}".

(** A message bearing one tool call, the tool message answering it, and
    a message of the user. *)
Definition ai_message : pyval :=
  PObj [("content", PStr []); ("type", PStr (lit "ai"));
        ("tool_calls",
         PList [PDict [(lit "name", PStr (lit "pubmed_search"));
                       (lit "args", PDict [(lit "term", PStr (lit "BRCA1"))]);
                       (lit "id", PStr (lit "call_1"))]])].

Definition tool_message : pyval :=
  PObj [("content", PStr nested_sample); ("type", PStr (lit "tool"));
        ("tool_call_id", PStr (lit "call_1"));
        ("name", PStr (lit "pubmed_search"))].

Definition human_message : pyval :=
  PObj [("content", PStr (lit "find papers")); ("type", PStr (lit "human"))].

(** A record of the message kind, with no ["input"] and no ["output"]. *)
Definition messages_response : list (pystr * pyval) :=
  [(lit "messages", PList [human_message; ai_message; tool_message])].





(** An input that is a mapping holding an object [json.dumps] rejects. *)
Definition object_input_response : list (pystr * pyval) :=
  [(lit "input", PDict [(lit "payload", PObj [])])].

End Samples.

(* ===================================================================== *)
(** * Facts about the model of [json.loads]                               *)
(* ===================================================================== *)

Import Py Json Rich AgentDisplay Samples.

Section JsonFacts.

Lemma skip_ws_length (s : pystr) : length (skip_ws s) <= length s.
Proof.
  induction s as [|c r IH]; simpl; [lia|].
  destruct (ws c); simpl; lia.
Qed.

(** A string literal is longer than the string it denotes: every escape
    is at least as long as the character it stands for, and the closing
    quote is consumed. *)
Lemma scanstring_length (s str rest : pystr) :
  scanstring s = Some (str, rest) ->
  length str + length rest + 1 <= length s.
Proof.
  assert (Hle : length s <= length s) by lia.
  revert Hle. generalize (length s) at 2. intros n.
  revert s str rest.
  induction n as [|n IH]; intros s str rest Hle H.
  - destruct s; [discriminate | simpl in Hle; lia].
  - assert (Hpush : forall c t,
               length t <= n ->
               push c (scanstring t) = Some (str, rest) ->
               length str + length rest <= length t).
    { intros c t Ht Hp. destruct (scanstring t) as [[str' rest']|] eqn:E;
        [|discriminate].
      simpl in Hp. injection Hp as <- <-.
      specialize (IH _ _ _ Ht E). simpl. lia. }
    destruct s as [|c r]; [discriminate|]. simpl in Hle.
    cbn [scanstring] in H.
    destruct (N.eqb c dquote).
    { injection H as <- <-. simpl. lia. }
    destruct (N.eqb c backslash).
    + destruct r as [|e r1]; [discriminate|]. simpl in Hle.
      destruct (N.eqb e (ch "u")).
      * destruct r1 as [|h1 [|h2 [|h3 [|h4 r2]]]]; try discriminate.
        simpl in Hle.
        destruct (hex4 h1 h2 h3 h4) as [uni|]; [|discriminate].
        assert (Hplain : push uni (scanstring r2) = Some (str, rest) ->
                         length str + length rest + 1 <=
                         length (c :: e :: h1 :: h2 :: h3 :: h4 :: r2)).
        { intros Hp. apply Hpush in Hp; simpl; lia. }
        destruct r2 as [|b [|u [|g1 [|g2 [|g3 [|g4 r4]]]]]];
          try (apply Hplain; exact H).
        destruct (high_surrogate uni && N.eqb b backslash
                  && N.eqb u (ch "u"));
          [|apply Hplain; exact H].
        destruct (hex4 g1 g2 g3 g4) as [uni2|]; [|discriminate].
        destruct (low_surrogate uni2); [|apply Hplain; exact H].
        apply Hpush in H; simpl in *; lia.
      * destruct (unescape e) as [x|]; [|discriminate].
        apply Hpush in H; simpl; lia.
    + destruct (N.ltb c 32); [discriminate|].
      apply Hpush in H; simpl; lia.
Qed.

Lemma take_digits_length (s ds rest : pystr) :
  take_digits s = (ds, rest) -> length ds + length rest = length s.
Proof.
  revert ds rest. induction s as [|c r IH]; intros ds rest H; simpl in H.
  - injection H as <- <-. reflexivity.
  - destruct (is_digit c).
    + destruct (take_digits r) as [ds' rest'] eqn:E.
      injection H as <- <-. specialize (IH _ _ eq_refl). simpl. lia.
    + injection H as <- <-. reflexivity.
Qed.

Lemma number_int_length (s ids rest : pystr) (neg : bool) :
  number_int s = Some (neg, ids, rest) -> length rest < length s.
Proof.
  unfold number_int. intros H.
  destruct s as [|c r]; [discriminate|].
  destruct (N.eqb c (ch "-")).
  - destruct r as [|c' r']; [discriminate|].
    destruct (N.eqb c' (ch "0")).
    + injection H as _ _ <-. simpl. lia.
    + destruct (is_digit c'); [|discriminate].
      destruct (take_digits r') as [ds rest0] eqn:E.
      injection H as _ _ <-. apply take_digits_length in E. simpl. lia.
  - destruct (N.eqb c (ch "0")).
    + injection H as _ _ <-. simpl. lia.
    + destruct (is_digit c); [|discriminate].
      destruct (take_digits r) as [ds rest0] eqn:E.
      injection H as _ _ <-. apply take_digits_length in E. simpl. lia.
Qed.

Lemma number_frac_length (s fs rest : pystr) :
  number_frac s = Some (fs, rest) -> length rest <= length s.
Proof.
  unfold number_frac. destruct s as [|c r]; [discriminate|].
  destruct (N.eqb c (ch ".")); [|discriminate].
  destruct (take_digits r) as [ds rest0] eqn:E.
  apply take_digits_length in E.
  destruct ds; [discriminate|]. intros H. injection H as _ <-. simpl. lia.
Qed.

Lemma number_exp_length (s rest : pystr) (e : Z) :
  number_exp s = Some (e, rest) -> length rest <= length s.
Proof.
  unfold number_exp. destruct s as [|c r]; [discriminate|].
  destruct (N.eqb c (ch "e") || N.eqb c (ch "E")); [|discriminate].
  destruct r as [|sg r']; [discriminate|].
  destruct (N.eqb sg (ch "-")); [|destruct (N.eqb sg (ch "+"))];
    match goal with
    | |- context [take_digits ?r1] =>
        destruct (take_digits r1) as [ds rest0] eqn:E;
        apply take_digits_length in E;
        destruct ds; [discriminate|];
        intros H; injection H as _ <-; simpl in *; lia
    end.
Qed.

Lemma match_number_length (s rest : pystr) (v : pyval) :
  match_number s = Some (v, rest) ->
  weight v = 1 /\ length rest < length s.
Proof.
  unfold match_number.
  destruct (number_int s) as [[[neg ids] r1]|] eqn:Ei; [|discriminate].
  apply number_int_length in Ei.
  destruct (number_frac r1) as [[fs rf]|] eqn:Ef.
  - apply number_frac_length in Ef.
    destruct (number_exp rf) as [[e re]|] eqn:Ee.
    + apply number_exp_length in Ee.
      intros H; injection H as <- <-. simpl. split; [reflexivity | lia].
    + intros H; injection H as <- <-. simpl. split; [reflexivity | lia].
  - destruct (number_exp r1) as [[e re]|] eqn:Ee.
    + apply number_exp_length in Ee.
      intros H; injection H as <- <-. simpl. split; [reflexivity | lia].
    + intros H; injection H as <- <-. simpl. split; [reflexivity | lia].
Qed.

Lemma weight_PList (l : list pyval) : weight (PList l) = S (weights l).
Proof.
  unfold weights. simpl. f_equal.
  induction l as [|x l IH]; simpl; [reflexivity | now rewrite IH].
Qed.

Lemma weight_PDict (d : list (pystr * pyval)) :
  weight (PDict d) = S (weights_of d).
Proof.
  unfold weights_of. simpl. f_equal.
  induction d as [|x d IH]; simpl; [reflexivity | now rewrite IH].
Qed.

Lemma weight_pos (v : pyval) : 1 <= weight v.
Proof. destruct v; simpl; lia. Qed.

Lemma dict_set_weight (d : list (pystr * pyval)) (k : pystr) (v : pyval) :
  weights_of (dict_set d k v) <= weights_of d + weight v.
Proof.
  unfold weights_of. induction d as [|[k' v'] d IH]; simpl; [lia|].
  destruct (str_eqb k k'); simpl in *; lia.
Qed.

(** [dict(pairs)] keeps one value per key: it weighs no more than the
    pairs it is built from. *)
Lemma dict_of_pairs_weight (pairs : list (pystr * pyval)) :
  weights_of (dict_of_pairs pairs) <= weights_of pairs.
Proof.
  unfold dict_of_pairs.
  assert (H : forall acc,
             weights_of (fold_left (fun d kv => dict_set d (fst kv) (snd kv))
                                   pairs acc)
             <= weights_of acc + weights_of pairs).
  { induction pairs as [|[k v] pairs IH]; intros acc; simpl.
    - unfold weights_of at 3. simpl. lia.
    - specialize (IH (dict_set acc k v)).
      pose proof (dict_set_weight acc k v).
      unfold weights_of at 3. simpl. fold (weights_of pairs). lia. }
  specialize (H []). unfold weights_of at 2 in H. simpl in H. exact H.
Qed.

Lemma startswith_length (p s : pystr) :
  startswith p s = true -> length p <= length s.
Proof.
  revert s. induction p as [|x p IH]; intros [|y s] H; simpl in *;
    try lia; try discriminate.
  apply andb_true_iff in H as [_ H]. apply IH in H. lia.
Qed.

Lemma skipn_lit_length (p s : pystr) (n : nat) :
  startswith p s = true -> n = length p -> 0 < n ->
  1 + length (skipn n s) <= length s.
Proof.
  intros H -> Hn. apply startswith_length in H.
  rewrite length_skipn. lia.
Qed.

(** The value [scan_once] returns weighs no more than the text it was
    read from; likewise for the items of an object and of an array. *)
Lemma scan_weight (fuel : nat) :
  (forall s v rest,
      scan_once fuel s = Some (v, rest) ->
      weight v + length rest <= length s)
  /\ (forall s pairs rest,
         object_items fuel s = Some (pairs, rest) ->
         weights_of pairs + length rest <= length s)
  /\ (forall s values rest,
         array_items fuel s = Some (values, rest) ->
         weights values + length rest <= length s).
Proof.
  induction fuel as [|fuel (IHscan & IHobj & IHarr)].
  { repeat split; intros; discriminate. }
  repeat split.
  - intros s v rest H. cbn [scan_once] in H.
    destruct s as [|c r]; [discriminate|].
    destruct (N.eqb c dquote).
    { destruct (scanstring r) as [[str rest']|] eqn:E; [|discriminate].
      injection H as <- <-. apply scanstring_length in E. simpl. lia. }
    destruct (N.eqb c (ch "{")).
    { pose proof (skip_ws_length r) as Hws.
      destruct (skip_ws r) as [|c1 r1]; [discriminate|]. simpl in Hws.
      destruct (N.eqb c1 (ch "}")).
      { injection H as <- <-. simpl. lia. }
      destruct (N.eqb c1 dquote); [|discriminate].
      destruct (object_items fuel r1) as [[pairs rest']|] eqn:E;
        [|discriminate].
      injection H as <- <-. apply IHobj in E.
      rewrite weight_PDict. pose proof (dict_of_pairs_weight pairs).
      simpl. lia. }
    destruct (N.eqb c (ch "[")).
    { pose proof (skip_ws_length r) as Hws.
      destruct (skip_ws r) as [|c1 r1]; [discriminate|]. simpl in Hws.
      destruct (N.eqb c1 (ch "]")).
      { injection H as <- <-. simpl. lia. }
      destruct (array_items fuel (c1 :: r1)) as [[values rest']|] eqn:E;
        [|discriminate].
      injection H as <- <-. apply IHarr in E.
      rewrite weight_PList. simpl in *. lia. }
    destruct (startswith (lit "null") (c :: r)) eqn:E1.
    { injection H as <- <-.
      apply skipn_lit_length with (n := 4) in E1; [simpl in *; lia | reflexivity | lia]. }
    destruct (startswith (lit "true") (c :: r)) eqn:E2.
    { injection H as <- <-.
      apply skipn_lit_length with (n := 4) in E2; [simpl in *; lia | reflexivity | lia]. }
    destruct (startswith (lit "false") (c :: r)) eqn:E3.
    { injection H as <- <-.
      apply skipn_lit_length with (n := 5) in E3; [simpl in *; lia | reflexivity | lia]. }
    destruct (match_number (c :: r)) as [[v' rest']|] eqn:En.
    { injection H as <- <-. apply match_number_length in En. lia. }
    destruct (startswith (lit "NaN") (c :: r)) eqn:E4.
    { injection H as <- <-.
      apply skipn_lit_length with (n := 3) in E4; [simpl in *; lia | reflexivity | lia]. }
    destruct (startswith (lit "Infinity") (c :: r)) eqn:E5.
    { injection H as <- <-.
      apply skipn_lit_length with (n := 8) in E5; [simpl in *; lia | reflexivity | lia]. }
    destruct (startswith (lit "-Infinity") (c :: r)) eqn:E6; [|discriminate].
    injection H as <- <-.
    apply skipn_lit_length with (n := 9) in E6; [simpl in *; lia | reflexivity | lia].
  - intros s pairs rest H. cbn [object_items] in H.
    destruct (scanstring s) as [[key r1]|] eqn:Ek; [|discriminate].
    apply scanstring_length in Ek.
    pose proof (skip_ws_length r1) as Hw1.
    destruct (skip_ws r1) as [|c r2]; [discriminate|]. simpl in Hw1.
    destruct (N.eqb c (ch ":")); [|discriminate].
    pose proof (skip_ws_length r2) as Hw2.
    destruct (scan_once fuel (skip_ws r2)) as [[value r3]|] eqn:Ev;
      [|discriminate].
    apply IHscan in Ev.
    pose proof (skip_ws_length r3) as Hw3.
    destruct (skip_ws r3) as [|c' r4]; [discriminate|]. simpl in Hw3.
    destruct (N.eqb c' (ch "}")).
    { injection H as <- <-. unfold weights_of. simpl. lia. }
    destruct (N.eqb c' (ch ",")); [|discriminate].
    pose proof (skip_ws_length r4) as Hw4.
    destruct (skip_ws r4) as [|q r5]; [discriminate|]. simpl in Hw4.
    destruct (N.eqb q dquote); [|discriminate].
    destruct (object_items fuel r5) as [[pairs' rest']|] eqn:Eo;
      [|discriminate].
    injection H as <- <-. apply IHobj in Eo.
    unfold weights_of in *. simpl. lia.
  - intros s values rest H. cbn [array_items] in H.
    destruct (scan_once fuel s) as [[value r1]|] eqn:Ev; [|discriminate].
    apply IHscan in Ev.
    pose proof (skip_ws_length r1) as Hw1.
    destruct (skip_ws r1) as [|c r2]; [discriminate|]. simpl in Hw1.
    destruct (N.eqb c (ch "]")).
    { injection H as <- <-. unfold weights. simpl. lia. }
    destruct (N.eqb c (ch ",")); [|discriminate].
    pose proof (skip_ws_length r2) as Hw2.
    destruct (array_items fuel (skip_ws r2)) as [[values' rest']|] eqn:Ea;
      [|discriminate].
    injection H as <- <-. apply IHarr in Ea.
    unfold weights in *. simpl. lia.
Qed.

(** What [json.loads] returns weighs no more than the length of its
    argument: the strings inside it are shorter than the argument. *)
Lemma loads_weight (s : pystr) (v : pyval) :
  loads s = Some v -> weight v <= length s.
Proof.
  unfold loads. intros H.
  destruct (scan_once (S (length s)) (skip_ws s)) as [[v' rest]|] eqn:E;
    [|discriminate].
  destruct (skip_ws rest); [|discriminate]. injection H as <-.
  apply (proj1 (scan_weight _)) in E.
  pose proof (skip_ws_length s). lia.
Qed.

(** A successful scan consumes at least one character. *)
Lemma scan_consumes (fuel : nat) :
  (forall s v rest,
      scan_once fuel s = Some (v, rest) -> length rest < length s)
  /\ (forall s pairs rest,
         object_items fuel s = Some (pairs, rest) -> length rest < length s)
  /\ (forall s values rest,
         array_items fuel s = Some (values, rest) -> length rest < length s).
Proof.
  destruct (scan_weight fuel) as (Hscan & Hobj & Harr).
  repeat split.
  - intros s v rest H. apply Hscan in H. pose proof (weight_pos v). lia.
  - intros s pairs rest H. pose proof (Hobj _ _ _ H) as Hw.
    destruct fuel as [|fuel]; [discriminate|]. cbn [object_items] in H.
    destruct (scanstring s) as [[key r1]|] eqn:Ek; [|discriminate].
    apply scanstring_length in Ek. pose proof (skip_ws_length r1) as Hw1.
    destruct (skip_ws r1) as [|c r2]; [discriminate|]. simpl in Hw1.
    destruct (N.eqb c (ch ":")); [|discriminate].
    destruct (scan_once fuel (skip_ws r2)) as [[value r3]|] eqn:Ev;
      [|discriminate].
    apply (proj1 (scan_weight fuel)) in Ev.
    pose proof (skip_ws_length r2). pose proof (skip_ws_length r3) as Hw3.
    destruct (skip_ws r3) as [|c' r4]; [discriminate|]. simpl in Hw3.
    destruct (N.eqb c' (ch "}")); [injection H as <- <-; lia|].
    destruct (N.eqb c' (ch ",")); [|discriminate].
    pose proof (skip_ws_length r4) as Hw4.
    destruct (skip_ws r4) as [|q r5]; [discriminate|]. simpl in Hw4.
    destruct (N.eqb q dquote); [|discriminate].
    destruct (object_items fuel r5) as [[pairs' rest']|] eqn:Eo;
      [|discriminate].
    injection H as <- <-.
    apply (proj1 (proj2 (scan_weight fuel))) in Eo. lia.
  - intros s values rest H.
    destruct fuel as [|fuel]; [discriminate|]. cbn [array_items] in H.
    destruct (scan_once fuel s) as [[value r1]|] eqn:Ev; [|discriminate].
    apply (proj1 (scan_weight fuel)) in Ev.
    pose proof (skip_ws_length r1) as Hw1.
    destruct (skip_ws r1) as [|c r2]; [discriminate|]. simpl in Hw1.
    destruct (N.eqb c (ch "]")); [injection H as <- <-; lia|].
    destruct (N.eqb c (ch ",")); [|discriminate].
    pose proof (skip_ws_length r2) as Hw2.
    destruct (array_items fuel (skip_ws r2)) as [[values' rest']|] eqn:Ea;
      [|discriminate].
    injection H as <- <-.
    apply (proj2 (proj2 (scan_weight fuel))) in Ea. lia.
Qed.

(** A scan that succeeds needs no more nested calls than the characters
    it consumes. *)
Lemma scan_fuel_enough (fuel : nat) :
  (forall s v rest,
      scan_once fuel s = Some (v, rest) ->
      forall m, length s - length rest <= m ->
                scan_once m s = Some (v, rest))
  /\ (forall s pairs rest,
         object_items fuel s = Some (pairs, rest) ->
         forall m, length s - length rest <= m ->
                   object_items m s = Some (pairs, rest))
  /\ (forall s values rest,
         array_items fuel s = Some (values, rest) ->
         forall m, length s - length rest <= m ->
                   array_items m s = Some (values, rest)).
Proof.
  induction fuel as [|fuel (IHscan & IHobj & IHarr)].
  { repeat split; intros; discriminate. }
  destruct (scan_consumes fuel) as (Cscan & Cobj & Carr).
  repeat split.
  - intros s v rest H m Hm.
    pose proof (proj1 (scan_consumes (S fuel)) _ _ _ H) as Hlt.
    destruct m as [|m]; [lia|]. cbn [scan_once] in H |- *.
    destruct s as [|c r]; [discriminate|]. cbn [length] in Hm, Hlt.
    destruct (N.eqb c dquote); [exact H|].
    destruct (N.eqb c (ch "{")).
    { pose proof (skip_ws_length r) as Hws.
      destruct (skip_ws r) as [|c1 r1]; [discriminate|]. simpl in Hws.
      destruct (N.eqb c1 (ch "}")); [exact H|].
      destruct (N.eqb c1 dquote); [|discriminate].
      destruct (object_items fuel r1) as [[pairs rest']|] eqn:E;
        [|discriminate].
      injection H as <- <-.
      rewrite (IHobj _ _ _ E m); [reflexivity | lia]. }
    destruct (N.eqb c (ch "[")).
    { pose proof (skip_ws_length r) as Hws.
      destruct (skip_ws r) as [|c1 r1]; [discriminate|]. simpl in Hws.
      destruct (N.eqb c1 (ch "]")); [exact H|].
      destruct (array_items fuel (c1 :: r1)) as [[values rest']|] eqn:E;
        [|discriminate].
      injection H as <- <-.
      rewrite (IHarr _ _ _ E m); [reflexivity | cbn [length]; lia]. }
    exact H.
  - intros s pairs rest H m Hm.
    pose proof (proj1 (proj2 (scan_consumes (S fuel))) _ _ _ H) as Hlt.
    destruct m as [|m]; [lia|]. cbn [object_items] in H |- *.
    destruct (scanstring s) as [[key r1]|] eqn:Ek; [|discriminate].
    apply scanstring_length in Ek. pose proof (skip_ws_length r1) as Hw1.
    destruct (skip_ws r1) as [|c r2]; [discriminate|]. simpl in Hw1.
    destruct (N.eqb c (ch ":")); [|discriminate].
    pose proof (skip_ws_length r2) as Hw2.
    destruct (scan_once fuel (skip_ws r2)) as [[value r3]|] eqn:Ev;
      [|discriminate].
    pose proof (Cscan _ _ _ Ev) as Hv.
    pose proof (skip_ws_length r3) as Hw3.
    destruct (skip_ws r3) as [|c' r4] eqn:E3; [discriminate|]. simpl in Hw3.
    destruct (N.eqb c' (ch "}")) eqn:Eclose.
    { injection H as <- <-.
      rewrite (IHscan _ _ _ Ev m); [|lia]. rewrite E3, Eclose. reflexivity. }
    destruct (N.eqb c' (ch ",")) eqn:Ecomma; [|discriminate].
    pose proof (skip_ws_length r4) as Hw4.
    destruct (skip_ws r4) as [|q r5] eqn:E4; [discriminate|]. simpl in Hw4.
    destruct (N.eqb q dquote) eqn:Eq; [|discriminate].
    destruct (object_items fuel r5) as [[pairs' rest']|] eqn:Eo;
      [|discriminate].
    injection H as <- <-. pose proof (Cobj _ _ _ Eo) as Ho.
    rewrite (IHscan _ _ _ Ev m); [|lia].
    rewrite E3, Eclose, Ecomma, E4, Eq.
    rewrite (IHobj _ _ _ Eo m); [reflexivity | lia].
  - intros s values rest H m Hm.
    pose proof (proj2 (proj2 (scan_consumes (S fuel))) _ _ _ H) as Hlt.
    destruct m as [|m]; [lia|]. cbn [array_items] in H |- *.
    destruct (scan_once fuel s) as [[value r1]|] eqn:Ev; [|discriminate].
    pose proof (Cscan _ _ _ Ev) as Hv.
    pose proof (skip_ws_length r1) as Hw1.
    destruct (skip_ws r1) as [|c r2] eqn:E1; [discriminate|]. simpl in Hw1.
    destruct (N.eqb c (ch "]")) eqn:Eclose.
    { injection H as <- <-.
      rewrite (IHscan _ _ _ Ev m); [|lia]. rewrite E1, Eclose. reflexivity. }
    destruct (N.eqb c (ch ",")) eqn:Ecomma; [|discriminate].
    pose proof (skip_ws_length r2) as Hw2.
    destruct (array_items fuel (skip_ws r2)) as [[values' rest']|] eqn:Ea;
      [|discriminate].
    injection H as <- <-. pose proof (Carr _ _ _ Ea) as Ha.
    rewrite (IHscan _ _ _ Ev m); [|lia].
    rewrite E1, Eclose, Ecomma.
    rewrite (IHarr _ _ _ Ea m); [reflexivity | lia].
Qed.

(** The bound [loads] gives the scanner is never the reason of a failure:
    any larger bound scans the same value. *)
Lemma scan_once_stable (n m : nat) (s : pystr) :
  length s < n -> length s < m -> scan_once n s = scan_once m s.
Proof.
  intros Hn Hm.
  destruct (scan_once n s) as [[v rest]|] eqn:En.
  - symmetry. apply (proj1 (scan_fuel_enough n) _ _ _ En). lia.
  - destruct (scan_once m s) as [[v rest]|] eqn:Em; [|reflexivity].
    rewrite (proj1 (scan_fuel_enough m) _ _ _ Em n) in En;
      [discriminate | lia].
Qed.

Lemma loads_any_bound (fuel : nat) (s : pystr) :
  length s < fuel ->
  match scan_once fuel (skip_ws s) with
  | Some (v, rest) =>
      match skip_ws rest with
      | [] => Some v
      | _ :: _ => None
      end
  | None => None
  end = loads s.
Proof.
  intros Hfuel. unfold loads. pose proof (skip_ws_length s).
  rewrite (scan_once_stable fuel (S (length s))); [reflexivity | lia | lia].
Qed.

(** The scanner on a few texts: nesting, escapes, a repeated key, numbers
    and constants; a trailing comma, a leading zero, text after the value
    and whitespace that only [str.strip] knows are rejected. *)
Example loads_samples :
  loads nested_sample = Some (PDict [(lit "ids", PStr (lit "[1, 2]"))])
  /\ loads (lit " [true, null, -12, 1.5e3, NaN, -Infinity] ")
     = Some (PList [PBool true; PNone; PInt (-12);
                    PFloat (FDec false 15 2); PFloat FNaN;
                    PFloat (FInf true)])
  /\ loads (lit "{" ++ [dquote] ++ lit "k" ++ [dquote] ++ lit ": 1, "
             ++ [dquote] ++ lit "k" ++ [dquote] ++ lit ": [] }")
     = Some (PDict [(lit "k", PList [])])
  /\ loads (lit "[" ++ [dquote; backslash] ++ lit "u0041"
             ++ [backslash] ++ lit "n" ++ [dquote] ++ lit "]")
     = Some (PList [PStr [65%N; 10%N]])
  /\ loads (lit "[1,]") = None
  /\ loads (lit "[01]") = None
  /\ loads (lit "[1] x") = None
  /\ loads (11%N :: lit "[1]") = None
  /\ looks_like_json (11%N :: lit "[1]") = true.
Proof. repeat split; vm_compute; reflexivity. Qed.

End JsonFacts.

(* ===================================================================== *)
(** * The recursive JSON normalizer                                       *)
(* ===================================================================== *)

Section CleanFacts.

Lemma map_opt_Forall2 {A B} (f : A -> option B) (l : list A) (l' : list B) :
  map_opt f l = Some l' <-> Forall2 (fun x y => f x = Some y) l l'.
Proof.
  revert l'. induction l as [|x l IH]; intros l'; simpl.
  - split; intros H.
    + injection H as <-. constructor.
    + inversion H. reflexivity.
  - split; intros H.
    + destruct (f x) as [y|] eqn:Ex; [|discriminate].
      destruct (map_opt f l) as [ys|] eqn:El; [|discriminate].
      injection H as <-. constructor; [exact Ex | now apply IH].
    + inversion H as [|x0 y l0 ys Hx Hl]; subst.
      rewrite Hx. apply IH in Hl. rewrite Hl. reflexivity.
Qed.

Lemma map_opt_map {A B} (f : A -> option B) (g : A -> B) (l : list A) :
  Forall (fun x => f x = Some (g x)) l -> map_opt f l = Some (map g l).
Proof.
  intros H. apply map_opt_Forall2.
  induction H; simpl; constructor; assumption.
Qed.

Lemma weights_In (l : list pyval) (x : pyval) :
  In x l -> weight x <= weights l.
Proof.
  unfold weights. induction l as [|y l IH]; simpl; [tauto|].
  intros [-> | H]; [lia | apply IH in H; lia].
Qed.

Lemma weights_of_In (d : list (pystr * pyval)) (kv : pystr * pyval) :
  In kv d -> weight (snd kv) <= weights_of d.
Proof.
  unfold weights_of. induction d as [|y d IH]; simpl; [tauto|].
  intros [-> | H]; [lia | apply IH in H; lia].
Qed.

(** More room for nested calls does not change the result. *)
Lemma depth_mono (n : nat) :
  forall data v,
    recursive_json_clean_depth n data = Some v ->
    forall m, n <= m -> recursive_json_clean_depth m data = Some v.
Proof.
  induction n as [|n IH]; intros data v H m Hm; [discriminate|].
  destruct m as [|m]; [lia|]. assert (Hnm : n <= m) by lia.
  cbn [recursive_json_clean_depth] in *.
  destruct data; try exact H.
  - destruct (looks_like_json s); [|exact H].
    destruct (loads s); [|exact H]. eapply IH; eassumption.
  - destruct (map_opt (recursive_json_clean_depth n) items) as [l'|] eqn:E;
      [|discriminate].
    apply map_opt_Forall2 in E.
    assert (E' : map_opt (recursive_json_clean_depth m) items = Some l').
    { apply map_opt_Forall2.
      eapply Forall2_impl; [|exact E]. intros a b Hab. eapply IH; eauto. }
    rewrite E'. exact H.
  - match type of H with
    | option_map _ (map_opt ?f items) = _ =>
        destruct (map_opt f items) as [l'|] eqn:E; [|discriminate]
    end.
    apply map_opt_Forall2 in E.
    match goal with
    | |- option_map _ (map_opt ?g items) = _ =>
        assert (E' : map_opt g items = Some l')
    end.
    { apply map_opt_Forall2.
      eapply Forall2_impl; [|exact E]. intros a b Hab. cbv beta in *.
      destruct (recursive_json_clean_depth n (snd a)) as [w|] eqn:Ea;
        [|discriminate].
      rewrite (IH _ _ Ea m Hnm). exact Hab. }
    rewrite E'. exact H.
Qed.

(** A nesting of calls as deep as the weight of the argument is enough. *)
Lemma depth_enough (n : nat) :
  forall data, weight data <= n ->
               exists v, recursive_json_clean_depth n data = Some v.
Proof.
  induction n as [|n IH]; intros data Hw.
  { pose proof (weight_pos data). lia. }
  cbn [recursive_json_clean_depth].
  destruct data; try (eexists; reflexivity).
  - destruct (looks_like_json s); [|eexists; reflexivity].
    destruct (loads s) as [parsed|] eqn:E; [|eexists; reflexivity].
    apply IH. apply loads_weight in E. simpl in Hw. lia.
  - rewrite weight_PList in Hw.
    assert (H : exists l', Forall2 (fun x y =>
                 recursive_json_clean_depth n x = Some y) items l').
    { assert (Hin : forall x, In x items -> weight x <= n).
      { intros x Hx. apply weights_In in Hx. lia. }
      clear Hw. induction items as [|x l IHl].
      - exists []. constructor.
      - destruct (IH x) as [y Hy]; [apply Hin; now left|].
        destruct IHl as [l' Hl']; [intros z Hz; apply Hin; now right|].
        exists (y :: l'). constructor; assumption. }
    destruct H as [l' H]. apply map_opt_Forall2 in H.
    rewrite H. eexists; reflexivity.
  - rewrite weight_PDict in Hw.
    assert (H : exists l', Forall2 (fun kv y =>
                 option_map (pair (fst kv))
                   (recursive_json_clean_depth n (snd kv)) = Some y)
                 items l').
    { assert (Hin : forall kv, In kv items -> weight (snd kv) <= n).
      { intros kv Hkv. apply weights_of_In in Hkv. lia. }
      clear Hw. induction items as [|kv l IHl].
      - exists []. constructor.
      - destruct (IH (snd kv)) as [y Hy]; [apply Hin; now left|].
        destruct IHl as [l' Hl']; [intros z Hz; apply Hin; now right|].
        exists ((fst kv, y) :: l'). constructor; [|assumption].
        rewrite Hy. reflexivity. }
    destruct H as [l' H]. apply map_opt_Forall2 in H.
    rewrite H. eexists; reflexivity.
Qed.

(** Any sufficient depth yields [recursive_json_clean]. *)
Lemma depth_run (n : nat) (data : pyval) :
  weight data <= n ->
  recursive_json_clean_depth n data = Some (recursive_json_clean data).
Proof.
  intros Hn. unfold recursive_json_clean.
  destruct (depth_enough (weight data) data (le_n _)) as [v Hv].
  rewrite Hv. eapply depth_mono; eassumption.
Qed.

(** The equations of the source function, one per branch. *)
Lemma clean_PList (l : list pyval) :
  recursive_json_clean (PList l) = PList (map recursive_json_clean l).
Proof.
  unfold recursive_json_clean at 1. rewrite weight_PList.
  cbn [recursive_json_clean_depth].
  rewrite (map_opt_map _ recursive_json_clean); [reflexivity|].
  apply Forall_forall. intros x Hx. apply depth_run. now apply weights_In.
Qed.

Lemma clean_PDict (d : list (pystr * pyval)) :
  recursive_json_clean (PDict d) =
  PDict (map (fun kv => (fst kv, recursive_json_clean (snd kv))) d).
Proof.
  unfold recursive_json_clean at 1. rewrite weight_PDict.
  cbn [recursive_json_clean_depth].
  rewrite (map_opt_map _ (fun kv => (fst kv, recursive_json_clean (snd kv))));
    [reflexivity|].
  apply Forall_forall. intros kv Hkv.
  rewrite depth_run; [reflexivity | now apply weights_of_In].
Qed.

Lemma clean_PStr (s : pystr) :
  recursive_json_clean (PStr s) =
  if looks_like_json s then
    match loads s with
    | Some parsed => recursive_json_clean parsed
    | None => PStr s
    end
  else PStr s.
Proof.
  unfold recursive_json_clean at 1. cbn [weight recursive_json_clean_depth].
  destruct (looks_like_json s); [|reflexivity].
  destruct (loads s) as [parsed|] eqn:E; [|reflexivity].
  rewrite depth_run; [reflexivity | now apply loads_weight].
Qed.

(** The result of a run is left unchanged by another run. *)
Lemma clean_fixed (n : nat) :
  forall data v,
    recursive_json_clean_depth n data = Some v ->
    recursive_json_clean v = v.
Proof.
  induction n as [|n IH]; intros data v H; [discriminate|].
  cbn [recursive_json_clean_depth] in H.
  destruct data; try (injection H as <-; reflexivity).
  - destruct (looks_like_json s) eqn:El.
    + destruct (loads s) as [parsed|] eqn:Ep.
      * eapply IH; eassumption.
      * injection H as <-. rewrite clean_PStr, El, Ep. reflexivity.
    + injection H as <-. rewrite clean_PStr, El. reflexivity.
  - destruct (map_opt (recursive_json_clean_depth n) items) as [l'|] eqn:E;
      [|discriminate].
    injection H as <-. apply map_opt_Forall2 in E.
    rewrite clean_PList. f_equal.
    induction E as [|x y l l' Hxy _ IHl]; simpl; [reflexivity|].
    rewrite (IH _ _ Hxy), IHl. reflexivity.
  - match type of H with
    | option_map _ (map_opt ?f items) = _ =>
        destruct (map_opt f items) as [l'|] eqn:E; [|discriminate]
    end.
    injection H as <-. apply map_opt_Forall2 in E.
    rewrite clean_PDict. f_equal.
    induction E as [|x y l l' Hxy _ IHl]; simpl; [reflexivity|].
    cbv beta in Hxy.
    destruct (recursive_json_clean_depth n (snd x)) as [w|] eqn:Ew;
      [|discriminate].
    injection Hxy as <-. simpl. rewrite (IH _ _ Ew), IHl. reflexivity.
Qed.


End CleanFacts.

Section CleanClaims.

Example clean_nested_sample :
  recursive_json_clean (PList [PStr nested_sample; PStr (lit " [x] ")])
  = PList [PDict [(lit "ids", PList [PInt 1; PInt 2])]; PStr (lit " [x] ")].
Proof. vm_compute. reflexivity. Qed.

(** The depth is a real bound: one call cannot normalize a list. *)
Example clean_depth_exceeded :
  recursive_json_clean_depth 1 (PList [PStr nested_sample]) = None
  /\ recursive_json_clean_depth 5 (PList [PStr nested_sample]) = None
  /\ recursive_json_clean_depth 6 (PList [PStr nested_sample])
     = Some (PList [PDict [(lit "ids", PList [PInt 1; PInt 2])]]).
Proof. repeat split; vm_compute; reflexivity. Qed.




(** C3.  [recursive_json_clean] is idempotent. *)
Theorem recursive_json_clean_idempotent (x : pyval) :
  recursive_json_clean (recursive_json_clean x) = recursive_json_clean x.
Proof.
  apply (clean_fixed (weight x) x). apply depth_run. lia.
Qed.

(** C5.  [recursive_json_clean] terminates on every value: its calls nest
    no deeper than the weight of its argument, also through the values it
    parses out of strings (a parsed value weighs no more than the length
    of the string it was read from); every bound from there on gives the
    same result, which is the value of [recursive_json_clean]. *)
Theorem recursive_json_clean_terminates (data : pyval) :
  exists result,
    (forall depth,
        weight data <= depth ->
        recursive_json_clean_depth depth data = Some result)
    /\ recursive_json_clean data = result.
Proof.
  exists (recursive_json_clean data). split; [|reflexivity].
  intros depth Hdepth. now apply depth_run.
Qed.

(** C9.  A string that fails the bracket test is returned unchanged. *)
Theorem plain_string_unchanged (s : pystr) :
  looks_like_json s = false ->
  recursive_json_clean (PStr s) = PStr s.
Proof.
  intros Hlooks. rewrite clean_PStr, Hlooks. reflexivity.
Qed.

Lemma plain_string_unchanged_witness :
  looks_like_json (lit "[1, 2] and more") = false
  /\ recursive_json_clean (PStr (lit "[1, 2] and more"))
     = PStr (lit "[1, 2] and more").
Proof.
  split; [reflexivity|].
  apply (plain_string_unchanged (lit "[1, 2] and more")). reflexivity.
Defined.

End CleanClaims.

(* ===================================================================== *)
(** * The renderer                                                        *)
(* ===================================================================== *)

Section RenderFacts.

Local Open Scope string_scope.
Local Open Scope list_scope.

Lemma events_seq {A B} (m : io A) (k : A -> io B) :
  events (seq m k) =
  events m ++ match snd m with
              | inr a => events (k a)
              | inl _ => []
              end.
Proof.
  destruct m as [ev [e|a]]; simpl; [now rewrite app_nil_r|].
  destruct (k a); reflexivity.
Qed.

Lemma returns_seq {A B} (m : io A) (k : A -> io B) :
  returns (seq m k) =
  match snd m with
  | inr a => returns (k a)
  | inl _ => false
  end.
Proof.
  destruct m as [ev [e|a]]; simpl; [reflexivity|].
  destruct (k a); reflexivity.
Qed.

(** ** What a procedure can print *)

Section Only.
Variable P : event -> bool.

Lemma only_seq {A B} (m : io A) (k : A -> io B) :
  forallb P (events m) = true ->
  (forall a, forallb P (events (k a)) = true) ->
  forallb P (events (seq m k)) = true.
Proof.
  intros Hm Hk. rewrite events_seq, forallb_app, Hm.
  destruct (snd m); simpl; auto.
Qed.

Lemma only_lift {A} (r : res A) : forallb P (events (lift r)) = true.
Proof. reflexivity. Qed.

Lemma only_print (e : event) :
  P e = true -> forallb P (events (console_print e)) = true.
Proof. intros H. simpl. now rewrite H. Qed.

Lemma only_for_each {A} (items : list A) (body : A -> io unit) :
  (forall x, forallb P (events (body x)) = true) ->
  forallb P (events (for_each items body)) = true.
Proof.
  intros H. induction items as [|x items IH]; [reflexivity|].
  cbn [for_each]. apply only_seq; auto.
Qed.

Lemma only_for_enumerate {A} (items : list A) (body : Z -> A -> io unit) :
  (forall i x, forallb P (events (body i x)) = true) ->
  forall start, forallb P (events (for_enumerate start items body)) = true.
Proof.
  intros H. induction items as [|x items IH]; intros start; [reflexivity|].
  cbn [for_enumerate]. apply only_seq; auto.
Qed.

Lemma print_header_only (text style : string) :
  P PrintBlank = true ->
  P (Print (Panel [FLit text] style HEAVY false None "center")) = true ->
  forallb P (events (print_header text style)) = true.
Proof. intros H1 H2. simpl. now rewrite H1, H2. Qed.

Lemma print_input_only (input_data : pyval) :
  (forall content,
      P (Print (Panel (FLit input_heading :: content)
                      "green" ROUNDED true (Some "START") "left")) = true) ->
  forallb P (events (print_input input_data)) = true.
Proof.
  intros H. unfold print_input.
  apply only_seq; [apply only_lift|]. intros content.
  apply only_print, H.
Qed.

Lemma print_step_only (i : Z) (step : pyval) :
  (forall rest kids,
      P (PrintTree (Tree (Str (FLit step_heading :: rest)) kids)) = true) ->
  P (Print (Str [FLit ""])) = true ->
  forallb P (events (print_step i step)) = true.
Proof.
  intros Htree Hblank. unfold print_step.
  apply only_seq; [apply only_lift|]. intros [action observation].
  apply only_seq; [apply only_lift|]. intros log_nodes.
  apply only_seq; [apply only_print, Htree|]. intros _.
  apply only_print, Hblank.
Qed.

Lemma print_intermediate_steps_only (steps : pyval) :
  P (Print (Str [FLit executor_banner])) = true ->
  (forall rest kids,
      P (PrintTree (Tree (Str (FLit step_heading :: rest)) kids)) = true) ->
  P (Print (Str [FLit ""])) = true ->
  forallb P (events (print_intermediate_steps steps)) = true.
Proof.
  intros Hbanner Htree Hblank. unfold print_intermediate_steps.
  destruct (negb (truthy steps)); [reflexivity|].
  apply only_seq; [apply only_print, Hbanner|]. intros _.
  apply only_seq; [apply only_lift|]. intros items.
  apply only_for_enumerate. intros i x. now apply print_step_only.
Qed.

Lemma print_item_only (item : seq_item) :
  (forall rest kids,
      P (PrintTree (Tree (Str (FLit invoke_heading :: rest)) kids)) = true) ->
  (forall rest kids,
      P (PrintTree (Tree (Str (FLit result_heading :: rest))
                         kids)) = true) ->
  P (Print (Str [FLit ""])) = true ->
  forallb P (events (print_item item)) = true.
Proof.
  intros Hinvoke Hresult Hblank. destruct item; cbn [print_item].
  - apply only_print, Hinvoke.
  - apply only_seq; [apply only_print, Hresult|]. intros _.
    apply only_print, Hblank.
Qed.

Lemma print_message_history_only (messages : pyval) :
  P (Print (Str [FLit messages_banner])) = true ->
  (forall rest kids,
      P (PrintTree (Tree (Str (FLit invoke_heading :: rest)) kids)) = true) ->
  (forall rest kids,
      P (PrintTree (Tree (Str (FLit result_heading :: rest))
                         kids)) = true) ->
  P (Print (Str [FLit ""])) = true ->
  forallb P (events (print_message_history messages)) = true.
Proof.
  intros Hbanner Hinvoke Hresult Hblank. unfold print_message_history.
  apply only_seq; [apply only_lift|]. intros msgs.
  apply only_seq; [apply only_lift|]. intros [|item items]; [reflexivity|].
  apply only_seq; [apply only_print, Hbanner|]. intros _.
  apply only_for_each. intros x. now apply print_item_only.
Qed.

Lemma print_final_answer_only (output : pyval) :
  P (Print (Panel [FLit final_heading] "magenta" MINIMAL
                  true None "center")) = true ->
  (forall s, P (Print (Markdown s)) = true) ->
  (forall d, P (Print (JSON_from_data d)) = true) ->
  (forall v, P (Print (Str [FVal v])) = true) ->
  P (Print (Panel [FLit end_heading] "dim" ROUNDED true
                  (Some "END") "right")) = true ->
  forallb P (events (print_final_answer output)) = true.
Proof.
  intros Hfirst Hmd Hjson Hstr Hlast. unfold print_final_answer.
  apply only_seq; [apply only_print, Hfirst|]. intros _.
  apply only_seq.
  - destruct (getattr_default output "content" output);
      try (apply only_print, Hstr).
    + apply only_print, Hmd.
    + apply only_seq; [apply only_lift|]. intros _.
      apply only_print, Hjson.
  - intros _. apply only_print, Hlast.
Qed.

Lemma show_debug_only (response : list (pystr * pyval)) (show_raw : bool) :
  P (Print (Str [FLit raw_banner])) = true ->
  (forall obj overflow, P (Print (Pretty obj overflow)) = true) ->
  forallb P (events (show_debug response show_raw)) = true.
Proof.
  intros Hbanner Hpretty. unfold show_debug.
  destruct show_raw; [|reflexivity]. simpl.
  now rewrite Hbanner, Hpretty.
Qed.

Lemma show_input_only (response : list (pystr * pyval)) :
  (forall content,
      P (Print (Panel (FLit input_heading :: content)
                      "green" ROUNDED true (Some "START") "left")) = true) ->
  forallb P (events (show_input response)) = true.
Proof.
  intros H. unfold show_input.
  destruct (dict_get (lit "input") response); [now apply print_input_only|].
  destruct (dict_get (lit "messages") response); [|reflexivity].
  apply only_seq; [apply only_lift|]. intros [|]; [|reflexivity].
  apply only_seq; [apply only_lift|]. intros content.
  now apply print_input_only.
Qed.

Lemma show_output_only (response : list (pystr * pyval)) :
  P (Print (Panel [FLit final_heading] "magenta" MINIMAL
                  true None "center")) = true ->
  (forall s, P (Print (Markdown s)) = true) ->
  (forall d, P (Print (JSON_from_data d)) = true) ->
  (forall v, P (Print (Str [FVal v])) = true) ->
  P (Print (Panel [FLit end_heading] "dim" ROUNDED true
                  (Some "END") "right")) = true ->
  forallb P (events (show_output response)) = true.
Proof.
  intros Hfirst Hmd Hjson Hstr Hlast. unfold show_output.
  destruct (dict_get (lit "output") response);
    [now apply print_final_answer_only|].
  destruct (dict_get (lit "messages") response); [|reflexivity].
  apply only_seq; [apply only_lift|]. intros [|]; [|reflexivity].
  apply only_seq; [apply only_lift|]. intros last.
  now apply print_final_answer_only.
Qed.

(** The report is the concatenation of what its four steps print. *)
Lemma visualize_only (response : list (pystr * pyval)) (show_raw : bool) :
  forallb P (events (print_header "LangChain v1.0 Agent Report"
                                  "bold cyan")) = true ->
  forallb P (events (show_input response)) = true ->
  forallb P (events (show_history response)) = true ->
  forallb P (events (show_output response)) = true ->
  forallb P (events (show_debug response show_raw)) = true ->
  forallb P (events (visualize_agent_response response show_raw)) = true.
Proof.
  intros H0 H1 H2 H3 H4. unfold visualize_agent_response.
  repeat (apply only_seq; [assumption | intros _]). assumption.
Qed.

End Only.

Lemma existsb_none (P : event -> bool) (l : list event) :
  forallb (fun e => negb (P e)) l = true -> existsb P l = false.
Proof.
  induction l as [|e l IH]; simpl; [reflexivity|].
  intros H. apply andb_true_iff in H as [He Hl].
  apply negb_true_iff in He. rewrite He. now apply IH.
Qed.

(** What a step prints after another, when the first ignores nothing. *)
Lemma events_then (m n : io unit) :
  events (seq m (fun _ => n)) =
  events m ++ if returns m then events n else [].
Proof.
  rewrite events_seq. unfold returns. destruct (snd m); reflexivity.
Qed.

Lemma visualize_events (response : list (pystr * pyval)) (show_raw : bool) :
  exists after,
    events (visualize_agent_response response show_raw) =
    (events (print_header "LangChain v1.0 Agent Report" "bold cyan")
     ++ events (show_input response))
    ++ (if returns (show_input response)
        then events (show_history response) else [])
    ++ after.
Proof.
  unfold visualize_agent_response.
  rewrite events_then. cbn [returns print_header seq console_print snd app].
  rewrite events_then.
  destruct (returns (show_input response)).
  - rewrite events_then. eexists. rewrite <- app_assoc. reflexivity.
  - exists []. rewrite !app_nil_r. reflexivity.
Qed.

End RenderFacts.

Section DispatchClaims.

Local Open Scope string_scope.
Local Open Scope list_scope.

(** Closes a goal [P e = true] for a printed shape by evaluation. *)
Ltac shape := intros; reflexivity.

Lemma no_messages_event_in_steps (steps : pyval) :
  forallb (fun e => negb (is_messages_event e))
          (events (print_intermediate_steps steps)) = true.
Proof. apply print_intermediate_steps_only; shape. Qed.

Lemma no_executor_event_in_messages (messages : pyval) :
  forallb (fun e => negb (is_executor_event e))
          (events (print_message_history messages)) = true.
Proof. apply print_message_history_only; shape. Qed.

(** The claim of C6 fails on the record with no key: neither branch
    runs, and the only thing the second step prints is the notice that
    there is no history. *)
Lemma empty_record_prints_neither_branch :
  visualize_agent_response [] false =
  ([PrintBlank;
    Print (Panel [FLit "LangChain v1.0 Agent Report"] "bold cyan" HEAVY
                 false None "center");
    Print (Str [FLit no_history_notice])],
   ok tt)
  /\ existsb is_history_event
             (events (visualize_agent_response [] false)) = false.
Proof. split; reflexivity. Qed.

(** C6, amended.  The renderer prints at most one of the two history
    branches, chosen by the keys of the record.  When
    ['intermediate_steps'] is present, the second step of the report is
    what [print_intermediate_steps] prints for its value and the report
    holds nothing of the message branch, whether or not ['messages'] is
    present.  When it is absent and ['messages'] is present, the second
    step is what [print_message_history] prints for the messages and the
    report holds nothing of the legacy branch.  When both are absent, the
    second step is the notice that no history was found and the report
    holds nothing of either branch.  (The second step is reached when the
    first one, the input, returns.) *)
Theorem history_branch_by_key
        (response : list (pystr * pyval)) (show_raw : bool) :
  let report := events (visualize_agent_response response show_raw) in
  let before :=
    events (print_header "LangChain v1.0 Agent Report" "bold cyan")
    ++ events (show_input response) in
  let reached := returns (show_input response) in
  match dict_get (lit "intermediate_steps") response,
        dict_get (lit "messages") response with
  | Some steps, _ =>
      existsb is_messages_event report = false
      /\ exists after,
           report =
           before
           ++ (if reached then events (print_intermediate_steps steps)
               else [])
           ++ after
  | None, Some messages =>
      existsb is_executor_event report = false
      /\ exists after,
           report =
           before
           ++ (if reached then events (print_message_history messages)
               else [])
           ++ after
  | None, None =>
      existsb is_history_event report = false
      /\ exists after,
           report =
           before
           ++ (if reached then [Print (Str [FLit no_history_notice])]
               else [])
           ++ after
  end.
Proof.
  cbv zeta.
  pose proof (visualize_events response show_raw) as Hev.
  assert (Hrest : forall P : event -> bool,
             P PrintBlank = true ->
             (forall text style,
                 P (Print (Panel [FLit text] style HEAVY false None
                                 "center")) = true) ->
             (forall content,
                 P (Print (Panel (FLit input_heading :: content) "green"
                                 ROUNDED true (Some "START") "left")) = true) ->
             P (Print (Panel [FLit final_heading] "magenta" MINIMAL
                             true None "center")) = true ->
             (forall s, P (Print (Markdown s)) = true) ->
             (forall d, P (Print (JSON_from_data d)) = true) ->
             (forall v, P (Print (Str [FVal v])) = true) ->
             P (Print (Panel [FLit end_heading] "dim" ROUNDED true
                             (Some "END") "right")) = true ->
             P (Print (Str [FLit raw_banner])) = true ->
             (forall obj overflow, P (Print (Pretty obj overflow)) = true) ->
             forallb P (events (show_history response)) = true ->
             forallb P (events (visualize_agent_response response show_raw))
             = true).
  { intros P H1 H2 H3 H4 H5 H6 H7 H8 H9 H10 Hh.
    apply visualize_only; trivial.
    - apply print_header_only; auto.
    - apply show_input_only; auto.
    - apply show_output_only; auto.
    - apply show_debug_only; auto. }
  unfold show_history in *.
  destruct (dict_get (lit "intermediate_steps") response) as [steps|].
  - split; [|exact Hev].
    apply existsb_none, Hrest; try shape.
    apply no_messages_event_in_steps.
  - destruct (dict_get (lit "messages") response) as [messages|].
    + split; [|exact Hev].
      apply existsb_none, Hrest; try shape.
      apply no_executor_event_in_messages.
    + split; [|exact Hev].
      apply existsb_none, Hrest; try shape.
Qed.




(** C7.  On a record whose only key is ['input'] and whose input is a
    mapping holding an object, [json.dumps] raises [TypeError] inside
    [print_input] (line 53), where nothing catches it: the report ends
    after its header, with no input panel. *)
Theorem object_input_raises :
  visualize_agent_response object_input_response false =
  ([PrintBlank;
    Print (Panel [FLit "LangChain v1.0 Agent Report"] "bold cyan" HEAVY
                 false None "center")],
   raise TypeError)
  /\ existsb is_input_panel
             (events (visualize_agent_response object_input_response false))
     = false.
Proof. split; reflexivity. Qed.

(** C10.  On a record whose ['messages'] is the empty list and which has
    neither ['input'] nor ['output'], the report has no input panel and no
    final-answer panel, and the message branch prints nothing. *)
Theorem empty_messages_no_panels
        (response : list (pystr * pyval)) (show_raw : bool) :
  dict_get (lit "messages") response = Some (PList []) ->
  has_key (lit "input") response = false ->
  has_key (lit "output") response = false ->
  let report := events (visualize_agent_response response show_raw) in
  existsb is_input_panel report = false
  /\ existsb is_final_answer_panel report = false
  /\ print_message_history (PList []) = ret tt.
Proof.
  intros Hmsgs Hin Hout. cbv zeta.
  unfold has_key in Hin, Hout.
  assert (Hi : show_input response = ret tt).
  { unfold show_input.
    destruct (dict_get (lit "input") response); [discriminate|].
    rewrite Hmsgs. reflexivity. }
  assert (Ho : show_output response = ret tt).
  { unfold show_output.
    destruct (dict_get (lit "output") response); [discriminate|].
    rewrite Hmsgs. reflexivity. }
  assert (Hh : forall P : event -> bool,
             P (Print (Str [FLit executor_banner])) = true ->
             (forall rest kids,
                 P (PrintTree (Tree (Str (FLit step_heading :: rest)) kids))
                 = true) ->
             P (Print (Str [FLit ""])) = true ->
             forallb P (events (show_history response)) = true).
  { intros P H1 H2 H3. unfold show_history.
    destruct (dict_get (lit "intermediate_steps") response);
      [now apply print_intermediate_steps_only|].
    rewrite Hmsgs. reflexivity. }
  repeat split.
  - apply existsb_none, visualize_only.
    + apply print_header_only; shape.
    + rewrite Hi. reflexivity.
    + apply Hh; shape.
    + rewrite Ho. reflexivity.
    + apply show_debug_only; shape.
  - apply existsb_none, visualize_only.
    + apply print_header_only; shape.
    + rewrite Hi. reflexivity.
    + apply Hh; shape.
    + rewrite Ho. reflexivity.
    + apply show_debug_only; shape.
Qed.

Lemma empty_messages_no_panels_witness :
  dict_get (lit "messages") [(lit "messages", PList [])] = Some (PList [])
  /\ has_key (lit "input") [(lit "messages", PList [])] = false
  /\ has_key (lit "output") [(lit "messages", PList [])] = false
  /\ existsb is_input_panel
             (events (visualize_agent_response
                        [(lit "messages", PList [])] true)) = false
  /\ existsb is_final_answer_panel
             (events (visualize_agent_response
                        [(lit "messages", PList [])] true)) = false
  /\ print_message_history (PList []) = ret tt.
Proof.
  split; [reflexivity|]. split; [reflexivity|]. split; [reflexivity|].
  apply (empty_messages_no_panels [(lit "messages", PList [])] true);
    reflexivity.
Defined.

End DispatchClaims.

Section MessageHistoryClaims.

Local Open Scope string_scope.
Local Open Scope list_scope.






End MessageHistoryClaims.

Section SafetyClaims.

Local Open Scope string_scope.
Local Open Scope list_scope.






Lemma log_nodes_ok (tool_name log_content : pyval) :
  showable_log tool_name log_content = true ->
  exists nodes, log_nodes tool_name log_content = ok nodes.
Proof.
  intros H. unfold log_nodes. unfold showable_log in H.
  destruct log_content as [| | | |l| | | |];
    try (apply negb_true_iff in H; rewrite H; eexists; reflexivity).
  destruct l as [|c l]; [eexists; reflexivity|].
  destruct tool_name as [| | | |t| | | |]; try discriminate.
  cbn [truthy length Nat.eqb negb contains bind ok].
  destruct (str_contains [newline] (c :: l)); cbn [bind contains ok];
    match goal with
    | |- context [str_contains t ?x] => destruct (str_contains t x)
    end; eexists; reflexivity.
Qed.









Lemma seq_lift_ok {A B} (a : A) (k : A -> io B) :
  seq (lift (ok a)) k = k a.
Proof. unfold seq, lift, ok. destruct (k a); reflexivity. Qed.







End SafetyClaims.

(* ===================================================================== *)
(** * More on the normalizer and the helper that renders values           *)
(* ===================================================================== *)

Section WhitespaceFacts.

Local Open Scope N_scope.

Lemma isspace_cases (c : N) :
  isspace c = true ->
  9 <= c <= 13 \/ 28 <= c <= 32 \/ c = 133 \/ c = 160 \/ c = 5760
  \/ 8192 <= c <= 8202 \/ c = 8232 \/ c = 8233 \/ c = 8239 \/ c = 8287
  \/ c = 12288.
Proof.
  unfold isspace. intros H.
  repeat (apply orb_true_iff in H; destruct H as [H|H]);
    repeat (apply andb_true_iff in H; destruct H as [H H']);
    repeat match goal with
           | X : (_ <=? _) = true |- _ => apply N.leb_le in X
           | X : (_ =? _) = true |- _ => apply N.eqb_eq in X
           end; lia.
Qed.


Lemma ws_cases (c : N) :
  ws c = false -> c <> 32 /\ c <> 9 /\ c <> 10 /\ c <> 13.
Proof.
  unfold ws. intros H.
  repeat (apply orb_false_iff in H; destruct H as [H ?]).
  repeat match goal with
         | X : (_ =? _) = false |- _ => apply N.eqb_neq in X
         end.
  auto.
Qed.

(** No JSON value starts with a character that only [str.strip] takes
    for whitespace. *)
Lemma scan_rejects_space (fuel : nat) (c : N) (r : pystr) :
  isspace c = true -> ws c = false -> scan_once fuel (c :: r) = None.
Proof.
  intros Hs Hw. apply isspace_cases in Hs. apply ws_cases in Hw.
  destruct fuel as [|fuel]; [reflexivity|].
  assert (Hne : forall k : N,
             List.In k [34; 123; 91; 110; 116; 102; 45; 48; 78; 73] ->
             N.eqb c k = false).
  { intros k Hk. apply N.eqb_neq. simpl in Hk.
    repeat (destruct Hk as [<-|Hk]; [lia|]). contradiction. }
  assert (Hne' : forall k : N,
             List.In k [110; 116; 102; 78; 73; 45] -> N.eqb k c = false).
  { intros k Hk. apply N.eqb_neq. simpl in Hk.
    repeat (destruct Hk as [<-|Hk]; [lia|]). contradiction. }
  assert (Hd : is_digit c = false).
  { unfold is_digit. apply andb_false_iff.
    destruct (N.leb 48 c) eqn:E1; [right | now left].
    apply N.leb_gt. apply N.leb_le in E1. lia. }
  cbn [scan_once].
  change dquote with 34. change (ch "{") with 123. change (ch "[") with 91.
  rewrite !Hne by (simpl; tauto).
  change (lit "null") with [110; 117; 108; 108].
  change (lit "true") with [116; 114; 117; 101].
  change (lit "false") with [102; 97; 108; 115; 101].
  change (lit "NaN") with [78; 97; 78].
  change (lit "Infinity") with [73; 110; 102; 105; 110; 105; 116; 121].
  change (lit "-Infinity") with [45; 73; 110; 102; 105; 110; 105; 116; 121].
  cbn [startswith]. rewrite !Hne' by (simpl; tauto). cbn [andb].
  unfold match_number, number_int.
  change (ch "-") with 45. change (ch "0") with 48.
  rewrite !Hne by (simpl; tauto). rewrite Hd. reflexivity.
Qed.





End WhitespaceFacts.

Section SerializableFacts.

Lemma serializable_PList (l : list pyval) :
  serializable (PList l) = forallb serializable l.
Proof.
  simpl. induction l as [|x l IH]; simpl; [reflexivity | now rewrite IH].
Qed.

Lemma serializable_PDict (d : list (pystr * pyval)) :
  serializable (PDict d) = forallb (fun kv => serializable (snd kv)) d.
Proof.
  simpl. induction d as [|x d IH]; simpl; [reflexivity | now rewrite IH].
Qed.

Lemma dict_set_serializable (d : list (pystr * pyval)) (k : pystr)
      (v : pyval) :
  forallb (fun kv => serializable (snd kv)) d = true ->
  serializable v = true ->
  forallb (fun kv => serializable (snd kv)) (dict_set d k v) = true.
Proof.
  intros Hd Hv. induction d as [|[k' v'] d IH]; simpl in *.
  - now rewrite Hv.
  - apply andb_true_iff in Hd as [H1 H2].
    destruct (str_eqb k k'); simpl.
    + now rewrite Hv, H2.
    + now rewrite H1, IH.
Qed.

Lemma dict_of_pairs_serializable (pairs : list (pystr * pyval)) :
  forallb (fun kv => serializable (snd kv)) pairs = true ->
  forallb (fun kv => serializable (snd kv)) (dict_of_pairs pairs) = true.
Proof.
  unfold dict_of_pairs.
  assert (H : forall acc,
             forallb (fun kv => serializable (snd kv)) acc = true ->
             forallb (fun kv => serializable (snd kv)) pairs = true ->
             forallb (fun kv => serializable (snd kv))
                     (fold_left (fun d kv => dict_set d (fst kv) (snd kv))
                                pairs acc) = true).
  { induction pairs as [|[k v] pairs IH]; intros acc Hacc Hp; simpl in *;
      [exact Hacc|].
    apply andb_true_iff in Hp as [Hv Hp].
    apply IH; [now apply dict_set_serializable | exact Hp]. }
  intros Hp. now apply H.
Qed.

Lemma match_number_serializable (s rest : pystr) (v : pyval) :
  match_number s = Some (v, rest) -> serializable v = true.
Proof.
  unfold match_number.
  destruct (number_int s) as [[[neg ids] r1]|]; [|discriminate].
  destruct (number_frac r1) as [[fs rf]|];
    [destruct (number_exp rf) as [[e re]|]
    |destruct (number_exp r1) as [[e re]|]];
    intros H; injection H as <- _; reflexivity.
Qed.

(** Everything [json.loads] returns is something [json.dumps] accepts. *)
Lemma scan_serializable (fuel : nat) :
  (forall s v rest,
      scan_once fuel s = Some (v, rest) -> serializable v = true)
  /\ (forall s pairs rest,
         object_items fuel s = Some (pairs, rest) ->
         forallb (fun kv => serializable (snd kv)) pairs = true)
  /\ (forall s values rest,
         array_items fuel s = Some (values, rest) ->
         forallb serializable values = true).
Proof.
  induction fuel as [|fuel (IHscan & IHobj & IHarr)].
  { repeat split; intros; discriminate. }
  repeat split.
  - intros s v rest H. cbn [scan_once] in H.
    destruct s as [|c r]; [discriminate|].
    destruct (N.eqb c dquote).
    { destruct (scanstring r) as [[str rest']|]; [|discriminate].
      injection H as <- _. reflexivity. }
    destruct (N.eqb c (ch "{")).
    { destruct (skip_ws r) as [|c1 r1]; [discriminate|].
      destruct (N.eqb c1 (ch "}")); [injection H as <- _; reflexivity|].
      destruct (N.eqb c1 dquote); [|discriminate].
      destruct (object_items fuel r1) as [[pairs rest']|] eqn:E;
        [|discriminate].
      injection H as <- _. rewrite serializable_PDict.
      apply dict_of_pairs_serializable. eapply IHobj; eassumption. }
    destruct (N.eqb c (ch "[")).
    { destruct (skip_ws r) as [|c1 r1]; [discriminate|].
      destruct (N.eqb c1 (ch "]")); [injection H as <- _; reflexivity|].
      destruct (array_items fuel (c1 :: r1)) as [[values rest']|] eqn:E;
        [|discriminate].
      injection H as <- _. rewrite serializable_PList.
      eapply IHarr; eassumption. }
    destruct (startswith (lit "null") (c :: r));
      [injection H as <- _; reflexivity|].
    destruct (startswith (lit "true") (c :: r));
      [injection H as <- _; reflexivity|].
    destruct (startswith (lit "false") (c :: r));
      [injection H as <- _; reflexivity|].
    destruct (match_number (c :: r)) as [[v' rest']|] eqn:En.
    { injection H as <- _. eapply match_number_serializable; eassumption. }
    destruct (startswith (lit "NaN") (c :: r));
      [injection H as <- _; reflexivity|].
    destruct (startswith (lit "Infinity") (c :: r));
      [injection H as <- _; reflexivity|].
    destruct (startswith (lit "-Infinity") (c :: r)); [|discriminate].
    injection H as <- _. reflexivity.
  - intros s pairs rest H. cbn [object_items] in H.
    destruct (scanstring s) as [[key r1]|]; [|discriminate].
    destruct (skip_ws r1) as [|c r2]; [discriminate|].
    destruct (N.eqb c (ch ":")); [|discriminate].
    destruct (scan_once fuel (skip_ws r2)) as [[value r3]|] eqn:Ev;
      [|discriminate].
    apply IHscan in Ev.
    destruct (skip_ws r3) as [|c' r4]; [discriminate|].
    destruct (N.eqb c' (ch "}")).
    { injection H as <- _. simpl. now rewrite Ev. }
    destruct (N.eqb c' (ch ",")); [|discriminate].
    destruct (skip_ws r4) as [|q r5]; [discriminate|].
    destruct (N.eqb q dquote); [|discriminate].
    destruct (object_items fuel r5) as [[pairs' rest']|] eqn:Eo;
      [|discriminate].
    injection H as <- _. apply IHobj in Eo. simpl. now rewrite Ev, Eo.
  - intros s values rest H. cbn [array_items] in H.
    destruct (scan_once fuel s) as [[value r1]|] eqn:Ev; [|discriminate].
    apply IHscan in Ev.
    destruct (skip_ws r1) as [|c r2]; [discriminate|].
    destruct (N.eqb c (ch "]")).
    { injection H as <- _. simpl. now rewrite Ev. }
    destruct (N.eqb c (ch ",")); [|discriminate].
    destruct (array_items fuel (skip_ws r2)) as [[values' rest']|] eqn:Ea;
      [|discriminate].
    injection H as <- _. apply IHarr in Ea. simpl. now rewrite Ev, Ea.
Qed.

Lemma loads_serializable (s : pystr) (v : pyval) :
  loads s = Some v -> serializable v = true.
Proof.
  unfold loads. intros H.
  destruct (scan_once (S (length s)) (skip_ws s)) as [[v' rest]|] eqn:E;
    [|discriminate].
  destruct (skip_ws rest); [|discriminate]. injection H as <-.
  eapply (proj1 (scan_serializable _)); eassumption.
Qed.


(** A run of the normalizer keeps what [json.dumps] accepts. *)
Lemma clean_depth_serializable (n : nat) :
  forall data v,
    recursive_json_clean_depth n data = Some v ->
    serializable data = true -> serializable v = true.
Proof.
  induction n as [|n IH]; intros data v H Hser; [discriminate|].
  cbn [recursive_json_clean_depth] in H.
  destruct data; try (injection H as <-; exact Hser).
  - destruct (looks_like_json s); [|injection H as <-; reflexivity].
    destruct (loads s) as [parsed|] eqn:Ep; [|injection H as <-; reflexivity].
    eapply IH; [eassumption|]. eapply loads_serializable; eassumption.
  - destruct (map_opt (recursive_json_clean_depth n) items) as [l'|] eqn:E;
      [|discriminate].
    injection H as <-. apply map_opt_Forall2 in E.
    rewrite serializable_PList in *.
    induction E as [|x y l l' Hxy _ IHl]; [reflexivity|].
    simpl in *. apply andb_true_iff in Hser as [Hx Hl].
    rewrite (IH _ _ Hxy Hx), (IHl Hl). reflexivity.
  - match type of H with
    | option_map _ (map_opt ?f items) = _ =>
        destruct (map_opt f items) as [l'|] eqn:E; [|discriminate]
    end.
    injection H as <-. apply map_opt_Forall2 in E.
    rewrite serializable_PDict in *.
    induction E as [|x y l l' Hxy _ IHl]; [reflexivity|].
    simpl in *. apply andb_true_iff in Hser as [Hx Hl].
    destruct (recursive_json_clean_depth n (snd x)) as [w|] eqn:Ew;
      [|discriminate].
    injection Hxy as <-. simpl.
    rewrite (IH _ _ Ew Hx), (IHl Hl). reflexivity.
Qed.


End SerializableFacts.

Section RenderValueProperties.

Local Open Scope string_scope.
Local Open Scope list_scope.

Lemma clean_depth_unserializable (n : nat) :
  forall data v,
    recursive_json_clean_depth n data = Some v ->
    serializable data = false -> serializable v = false.
Proof.
  induction n as [|n IH]; intros data v H Hser; [discriminate|].
  cbn [recursive_json_clean_depth] in H.
  destruct data; try (injection H as <-; exact Hser); try discriminate.
  - destruct (map_opt (recursive_json_clean_depth n) items) as [l'|] eqn:E;
      [|discriminate].
    injection H as <-. apply map_opt_Forall2 in E.
    rewrite serializable_PList in *.
    induction E as [|x y l l' Hxy _ IHl]; [discriminate|].
    simpl in *. apply andb_false_iff in Hser as [Hx|Hl].
    + now rewrite (IH _ _ Hxy Hx).
    + rewrite (IHl Hl). apply andb_false_r.
  - match type of H with
    | option_map _ (map_opt ?f items) = _ =>
        destruct (map_opt f items) as [l'|] eqn:E; [|discriminate]
    end.
    injection H as <-. apply map_opt_Forall2 in E.
    rewrite serializable_PDict in *.
    induction E as [|x y l l' Hxy _ IHl]; [discriminate|].
    simpl in *.
    destruct (recursive_json_clean_depth n (snd x)) as [w|] eqn:Ew;
      [|discriminate].
    injection Hxy as <-. simpl.
    apply andb_false_iff in Hser as [Hx|Hl].
    + now rewrite (IH _ _ Ew Hx).
    + rewrite (IHl Hl). apply andb_false_r.
Qed.



(** X3.  Rendering a value and rendering its normalized form give the
    same renderable: normalizing before the call changes nothing. *)
Theorem render_after_clean (data : pyval) (style : string) :
  _render_json_or_text (recursive_json_clean data) style =
  _render_json_or_text data style.
Proof.
  unfold _render_json_or_text.
  rewrite (clean_fixed (weight data) data _ (depth_run _ _ (le_n _))).
  reflexivity.
Qed.

(** X4.  The normalizer keeps what [json.dumps] accepts: a value that can
    be serialized before can be serialized after. *)
Theorem clean_keeps_serializable (data : pyval) :
  serializable data = true ->
  serializable (recursive_json_clean data) = true.
Proof.
  intros H. apply (clean_depth_serializable (weight data) data); [|exact H].
  apply depth_run. lia.
Qed.

Lemma clean_keeps_serializable_witness :
  serializable (PList [PStr nested_sample; PTuple [PInt 1]]) = true
  /\ serializable
       (recursive_json_clean (PList [PStr nested_sample; PTuple [PInt 1]]))
     = true.
Proof.
  split; [reflexivity|].
  apply (clean_keeps_serializable
           (PList [PStr nested_sample; PTuple [PInt 1]])). reflexivity.
Defined.

(** X5.  A value [json.dumps] rejects (it holds an object somewhere) is
    rendered as the plain string of its normalized form: the [TypeError]
    of line 66 is caught and nothing is raised. *)
Theorem unserializable_renders_plain (data : pyval) (style : string) :
  serializable data = false ->
  _render_json_or_text data style = Str [FVal (recursive_json_clean data)].
Proof.
  intros H. unfold _render_json_or_text, json_dumps.
  rewrite (clean_depth_unserializable (weight data) data _
             (depth_run _ _ (le_n _)) H).
  destruct (is_dict_or_list (recursive_json_clean data)); reflexivity.
Qed.

Lemma unserializable_renders_plain_witness :
  serializable (PDict [(lit "result", PObj []);
                       (lit "raw", PStr nested_sample)]) = false
  /\ _render_json_or_text
       (PDict [(lit "result", PObj []); (lit "raw", PStr nested_sample)])
       "monokai"
     = Str [FVal (PDict [(lit "result", PObj []);
                         (lit "raw",
                          PDict [(lit "ids", PList [PInt 1; PInt 2])])])].
Proof.
  split; [reflexivity|].
  apply (unserializable_renders_plain
           (PDict [(lit "result", PObj []); (lit "raw", PStr nested_sample)])
           "monokai"). reflexivity.
Defined.

(** X6.  A string whose first character is whitespace for [str.strip] but
    not for JSON (a vertical tab, a form feed, a no-break space, ...) is
    returned unchanged, whatever follows: the bracket test runs on the
    stripped string and [json.loads] on the original one. *)
Theorem padded_json_not_parsed (c : N) (s : pystr) :
  isspace c = true ->
  ws c = false ->
  recursive_json_clean (PStr (c :: s)) = PStr (c :: s).
Proof.
  intros Hs Hw. rewrite clean_PStr.
  destruct (looks_like_json (c :: s)); [|reflexivity].
  assert (Hloads : loads (c :: s) = None).
  { unfold loads. cbn [skip_ws]. rewrite Hw.
    now rewrite scan_rejects_space. }
  rewrite Hloads. reflexivity.
Qed.

Lemma padded_json_not_parsed_witness :
  isspace 160 = true
  /\ ws 160 = false
  /\ looks_like_json (160%N :: lit "[1, 2]") = true
  /\ recursive_json_clean (PStr (160%N :: lit "[1, 2]"))
     = PStr (160%N :: lit "[1, 2]").
Proof.
  split; [reflexivity|]. split; [reflexivity|]. split; [reflexivity|].
  apply (padded_json_not_parsed 160 (lit "[1, 2]")); reflexivity.
Defined.

End RenderValueProperties.

(* ===================================================================== *)
(** * More on the printing procedures                                     *)
(* ===================================================================== *)

Section InputAndLogProperties.

Local Open Scope string_scope.
Local Open Scope list_scope.


Lemma first_line_no_newline (l : pystr) :
  str_contains [newline] (first_line l) = false.
Proof.
  induction l as [|c r IH]; [reflexivity|]. cbn [first_line].
  destruct (N.eqb c newline) eqn:E; [reflexivity|].
  cbn [str_contains startswith]. rewrite (N.eqb_sym newline c), E, IH.
  reflexivity.
Qed.

Lemma first_line_whole (l : pystr) :
  str_contains [newline] l = false -> first_line l = l.
Proof.
  induction l as [|c r IH]; [reflexivity|].
  cbn [str_contains startswith first_line]. intros H.
  apply orb_false_iff in H as [H1 H2]. rewrite andb_true_r in H1.
  rewrite (N.eqb_sym c newline), H1, (IH H2). reflexivity.
Qed.

(** X8.  For a string log next to a string tool name, the step shows at
    most one log line: the text of the log before its first line feed,
    and only when the log is not empty and that first line does not
    mention the tool name.  The line shown never holds a line feed. *)
Theorem log_line_shown (tool_name log : pystr) :
  log_nodes (PStr tool_name) (PStr log) =
  ok (if Nat.eqb (length log) 0
         || str_contains tool_name (first_line log)
      then []
      else [Tree (Str [FLit "[italic dim]Log: ";
                       FVal (PStr (first_line log));
                       FLit "[/italic dim]"]) []])
  /\ str_contains [newline] (first_line log) = false.
Proof.
  split; [|apply first_line_no_newline].
  unfold log_nodes. cbn [truthy].
  destruct (Nat.eqb (length log) 0); [reflexivity|].
  cbn [negb orb contains bind ok].
  destruct (str_contains [newline] log) eqn:E; cbn [bind contains ok].
  - destruct (str_contains tool_name (first_line log)); reflexivity.
  - rewrite (first_line_whole log E).
    destruct (str_contains tool_name log); reflexivity.
Qed.

End InputAndLogProperties.

Section StepProperties.

Local Open Scope string_scope.
Local Open Scope list_scope.

(** What a well-formed step prints: its tree, numbered, and an empty
    line. *)
Lemma print_step_shape (i : Z) (step : pyval) :
  well_formed_step step = true ->
  exists tool kids,
    print_step i step =
    ([PrintTree (Tree (Str [FLit step_heading; FVal (PInt i); FLit ": ";
                            FVal tool; FLit "[/bold]"]) kids);
      Print (Str [FLit ""])], ok tt).
Proof.
  intros Hstep.
  assert (H : exists action observation nodes,
             unpack2 step = ok (action, observation)
             /\ log_nodes
                  (getattr_default action "tool" (PStr (lit "Unknown Tool")))
                  (getattr_default action "log" (PStr [])) = ok nodes).
  { unfold well_formed_step in Hstep.
    destruct step as [| | | | |l|l| |]; try discriminate;
      destruct l as [|action [|observation [|x l]]]; try discriminate;
      destruct (log_nodes_ok
                  (getattr_default action "tool" (PStr (lit "Unknown Tool")))
                  (getattr_default action "log" (PStr [])) Hstep)
        as [nodes Hnodes];
      exists action, observation, nodes; (split; [reflexivity | exact Hnodes]). }
  destruct H as (action & observation & nodes & Hunpack & Hnodes).
  unfold print_step. rewrite Hunpack. cbn [lift seq ok].
  rewrite Hnodes. eexists. eexists. reflexivity.
Qed.

Lemma enumerate_from_succ (start : Z) (n : nat) :
  enumerate_from start (S n) = start :: enumerate_from (start + 1) n.
Proof.
  unfold enumerate_from. cbn [List.seq map]. f_equal.
  - simpl. lia.
  - rewrite <- seq_shift, map_map. apply map_ext. intros k. lia.
Qed.

(** The loop over steps that begin well formed: two events per step,
    numbered from [start], then whatever the rest of the list does. *)
Lemma steps_prefix (good : list pyval) :
  Forall (fun s => well_formed_step s = true) good ->
  forall (start : Z) (tail : list pyval),
  exists evs,
    length evs = 2 * length good
    /\ step_numbers evs = enumerate_from start (length good)
    /\ for_enumerate start (good ++ tail) print_step =
       (evs ++ fst (for_enumerate (start + Z.of_nat (length good)) tail
                                  print_step),
        snd (for_enumerate (start + Z.of_nat (length good)) tail
                           print_step)).
Proof.
  induction 1 as [|s good Hs _ IH]; intros start tail.
  - exists []. repeat split. cbn [length Z.of_nat app].
    rewrite Z.add_0_r. destruct (for_enumerate start tail print_step).
    reflexivity.
  - destruct (print_step_shape start s Hs) as (tool & kids & Hprint).
    destruct (IH (start + 1)%Z tail) as (evs & Hlen & Hnums & Hrun).
    exists (PrintTree (Tree (Str [FLit step_heading; FVal (PInt start);
                                  FLit ": "; FVal tool; FLit "[/bold]"])
                            kids)
            :: Print (Str [FLit ""]) :: evs).
    repeat split.
    + cbn [length]. lia.
    + cbn [length]. rewrite enumerate_from_succ. unfold step_numbers in *.
      cbn [flat_map step_number]. rewrite String.eqb_refl.
      cbn [app]. now rewrite Hnums.
    + rewrite <- app_comm_cons. cbn [for_enumerate].
      rewrite Hprint. cbn [seq ok]. rewrite Hrun.
      replace (start + 1 + Z.of_nat (length good))%Z
        with (start + Z.of_nat (length (s :: good)))%Z
        by (cbn [length]; lia).
      reflexivity.
Qed.

Lemma enumerate_from_one (n : nat) :
  enumerate_from 1 n = map Z.of_nat (List.seq 1 n).
Proof.
  unfold enumerate_from. rewrite <- seq_shift, map_map.
  apply map_ext. intros k. lia.
Qed.



(** X10.  A step that is a tuple or a list of a length other than two
    raises [ValueError] when it is unpacked (line 84); the banner and the
    steps before it, when well formed, have been printed by then, and
    nothing of the step itself or of the steps after it. *)
Theorem bad_step_stops_the_history
        (good rest items : list pyval) (as_tuple : bool) :
  forallb well_formed_step good = true ->
  length items <> 2 ->
  let bad := if as_tuple then PTuple items else PList items in
  let report := print_intermediate_steps (PList (good ++ bad :: rest)) in
  snd report = raise ValueError
  /\ step_numbers (events report) = map Z.of_nat (List.seq 1 (length good))
  /\ length (events report) = 1 + 2 * length good.
Proof.
  intros Hgood Hitems. cbv zeta.
  assert (Hall : Forall (fun x => well_formed_step x = true) good).
  { apply Forall_forall. rewrite forallb_forall in Hgood. exact Hgood. }
  set (bad := if as_tuple then PTuple items else PList items).
  assert (Hbad : forall i tail,
             for_enumerate i (bad :: tail) print_step =
             ([], raise ValueError)).
  { intros i tail. cbn [for_enumerate]. unfold print_step.
    assert (Hun : unpack2 bad = raise ValueError).
    { unfold bad, unpack2.
      destruct as_tuple; cbn [iter bind ok];
        destruct items as [|a [|b [|c l]]]; try reflexivity;
        exfalso; apply Hitems; reflexivity. }
    rewrite Hun. reflexivity. }
  destruct (steps_prefix good Hall 1 (bad :: rest))
    as (evs & Hlen & Hnums & Hrun).
  rewrite Hbad in Hrun. cbn [fst snd] in Hrun. rewrite app_nil_r in Hrun.
  unfold print_intermediate_steps.
  assert (Htruthy : truthy (PList (good ++ bad :: rest)) = true).
  { cbn [truthy]. rewrite length_app. cbn [length].
    destruct (length good + S (length rest)) eqn:E; [lia | reflexivity]. }
  rewrite Htruthy. cbn [negb iter lift seq console_print ok app].
  rewrite Hrun. cbn [events fst snd app].
  repeat split.
  - unfold step_numbers. cbn [flat_map step_number app].
    fold (step_numbers evs). now rewrite Hnums, enumerate_from_one.
  - cbn [length]. lia.
Qed.

Lemma bad_step_stops_the_history_witness :
  snd (print_intermediate_steps
         (PList [PTuple [PObj []; PStr (lit "a")];
                 PTuple [PObj []];
                 PTuple [PObj []; PStr (lit "b")]]))
  = raise ValueError
  /\ step_numbers
       (events (print_intermediate_steps
                  (PList [PTuple [PObj []; PStr (lit "a")];
                          PTuple [PObj []];
                          PTuple [PObj []; PStr (lit "b")]])))
     = [1%Z]
  /\ length
       (events (print_intermediate_steps
                  (PList [PTuple [PObj []; PStr (lit "a")];
                          PTuple [PObj []];
                          PTuple [PObj []; PStr (lit "b")]])))
     = 3.
Proof.
  apply (bad_step_stops_the_history
           [PTuple [PObj []; PStr (lit "a")]]
           [PTuple [PObj []; PStr (lit "b")]]
           [PObj []] true); [reflexivity | discriminate].
Defined.

End StepProperties.

Section MessageProperties.

Local Open Scope string_scope.
Local Open Scope list_scope.







End MessageProperties.

Section ReportProperties.

Local Open Scope string_scope.
Local Open Scope list_scope.


Lemma rev_last (l : list pyval) (d : pyval) :
  l <> [] -> exists others, rev l = last l d :: others.
Proof.
  intros Hl. exists (rev (removelast l)).
  rewrite (app_removelast_last d Hl) at 1.
  rewrite rev_app_distr. reflexivity.
Qed.

(** X13.  A record that has only ['messages'] is reported, without the
    raw dump, exactly as the same record with ['input'] set to the
    content of its first message and ['output'] set to its last message:
    the two fallbacks read what the keys would hold. *)
Theorem messages_stand_in_for_keys
        (first : pyval) (others : list pyval) (content : pyval) :
  attr_get "content" (attrs_of first) = Some content ->
  let messages := PList (first :: others) in
  visualize_agent_response [(lit "messages", messages)] false =
  visualize_agent_response
    [(lit "input", content);
     (lit "output", last (first :: others) first);
     (lit "messages", messages)] false.
Proof.
  intros Hcontent. cbv zeta.
  destruct (rev_last (first :: others) first) as [rest Hrev];
    [discriminate|].
  assert (Hno_in : dict_get (lit "input")
                             [(lit "messages", PList (first :: others))]
                    = None) by reflexivity.
  assert (Hno_out : dict_get (lit "output")
                              [(lit "messages", PList (first :: others))]
                     = None) by reflexivity.
  assert (Hmsgs : dict_get (lit "messages")
                            [(lit "messages", PList (first :: others))]
                   = Some (PList (first :: others))) by reflexivity.
  assert (Hne : nonempty (PList (first :: others)) = ok true)
    by reflexivity.
  assert (Hin : show_input [(lit "messages", PList (first :: others))] =
                print_input content).
  { unfold show_input. rewrite Hno_in, Hmsgs, Hne, seq_lift_ok.
    cbn [getitem_first bind ok]. unfold getattr. rewrite Hcontent.
    now rewrite seq_lift_ok. }
  assert (Hout : show_output [(lit "messages", PList (first :: others))] =
                 print_final_answer (last (first :: others) first)).
  { unfold show_output. rewrite Hno_out, Hmsgs, Hne, seq_lift_ok.
    cbn [getitem_last]. rewrite Hrev. now rewrite seq_lift_ok. }
  unfold visualize_agent_response. rewrite Hin, Hout. reflexivity.
Qed.

Lemma messages_stand_in_for_keys_witness :
  visualize_agent_response messages_response false =
  visualize_agent_response
    [(lit "input", PStr (lit "find papers"));
     (lit "output", tool_message);
     (lit "messages", PList [human_message; ai_message; tool_message])]
    false.
Proof.
  apply (messages_stand_in_for_keys
           human_message [ai_message; tool_message]
           (PStr (lit "find papers"))).
  reflexivity.
Defined.

Lemma returns_and (m n : io unit) :
  returns (seq m (fun _ => n)) = returns m && returns n.
Proof.
  rewrite returns_seq. unfold returns. destruct (snd m); reflexivity.
Qed.

(** What the report holds, step by step: each step runs when the steps
    before it returned. *)
Lemma visualize_sections (response : list (pystr * pyval))
      (show_raw : bool) :
  events (visualize_agent_response response show_raw) =
  events (print_header "LangChain v1.0 Agent Report" "bold cyan")
  ++ events (show_input response)
  ++ (if returns (show_input response)
      then events (show_history response)
           ++ (if returns (show_history response)
               then events (show_output response)
                    ++ (if returns (show_output response)
                        then events (show_debug response show_raw)
                        else [])
               else [])
      else []).
Proof.
  unfold visualize_agent_response.
  rewrite events_then. cbn [returns print_header seq console_print snd app].
  rewrite !events_then. reflexivity.
Qed.

Lemma visualize_returns (response : list (pystr * pyval))
      (show_raw : bool) :
  returns (visualize_agent_response response show_raw) =
  returns (show_input response) && returns (show_history response)
  && returns (show_output response).
Proof.
  unfold visualize_agent_response. rewrite !returns_and.
  assert (Hd : returns (show_debug response show_raw) = true)
    by (destruct show_raw; reflexivity).
  rewrite Hd, andb_true_r, !andb_assoc. reflexivity.
Qed.

(** X14.  [show_raw] only appends: the report with the raw dump is the
    report without it followed, when that one returns, by the banner of
    the dump and the record itself; the flag never changes whether the
    call returns. *)
Theorem raw_dump_only_appends (response : list (pystr * pyval)) :
  events (visualize_agent_response response true) =
  events (visualize_agent_response response false)
  ++ (if returns (visualize_agent_response response false)
      then [Print (Str [FLit raw_banner]);
            Print (Pretty (PDict response) "fold")]
      else [])
  /\ returns (visualize_agent_response response true) =
     returns (visualize_agent_response response false).
Proof.
  split; [|now rewrite !visualize_returns].
  rewrite !visualize_sections, visualize_returns.
  destruct (returns (show_input response)),
           (returns (show_history response)),
           (returns (show_output response));
    cbn [andb show_debug events fst seq console_print ret app];
    rewrite ?app_nil_r, <- ?app_assoc; reflexivity.
Qed.

End ReportProperties.

Section SectionProperties.

Local Open Scope string_scope.
Local Open Scope list_scope.

Ltac printed := intros; reflexivity.

Lemma ranked_app (k : nat) (a b : list nat) :
  Forall (fun x => x = k) a ->
  nondecreasing b = true ->
  Forall (fun y => k <= y) b ->
  nondecreasing (a ++ b) = true /\ Forall (fun y => k <= y) (a ++ b).
Proof.
  intros Ha Hb Hkb.
  assert (Hall : forall a', Forall (fun x => x = k) a' ->
                            Forall (fun y => k <= y) (a' ++ b)).
  { intros a' Ha'. apply Forall_app. split; [|exact Hkb].
    eapply Forall_impl; [|exact Ha']. intros z ->. lia. }
  split; [|now apply Hall].
  induction Ha as [|x a Hx Ha IH]; [exact Hb|].
  cbn [app]. pose proof (Hall a Ha) as Hrest.
  destruct (a ++ b) as [|y l]; [reflexivity|].
  change (nondecreasing (x :: y :: l))
    with (Nat.leb x y && nondecreasing (y :: l)).
  rewrite IH, andb_true_r. apply Nat.leb_le.
  inversion Hrest; subst. lia.
Qed.

(** A part of the report followed by the parts that run after it, when
    it returns. *)
Lemma ranked_block (k : nat) (a b : list nat) (run : bool) :
  Forall (fun x => x = k) a ->
  nondecreasing b = true /\ Forall (fun y => S k <= y) b ->
  nondecreasing (a ++ (if run then b else [])) = true
  /\ Forall (fun y => k <= y) (a ++ (if run then b else [])).
Proof.
  intros Ha [Hb Hkb]. destruct run.
  - apply ranked_app; [exact Ha | exact Hb|].
    eapply Forall_impl; [|exact Hkb]. intros y Hy. cbv beta in Hy. lia.
  - apply ranked_app; [exact Ha | reflexivity | constructor].
Qed.

Lemma map_app_if {A B} (f : A -> B) (a c : list A) (run : bool) :
  map f (a ++ (if run then c else [])) =
  map f a ++ (if run then map f c else []).
Proof. rewrite map_app. destruct run; reflexivity. Qed.

Lemma ranks_of (k : nat) (evs : list event) :
  forallb (fun e => Nat.eqb (section_rank e) k) evs = true ->
  Forall (fun x => x = k) (map section_rank evs).
Proof.
  intros H. rewrite forallb_forall in H. apply Forall_forall.
  intros x Hx. apply in_map_iff in Hx as (e & <- & He).
  apply Nat.eqb_eq. auto.
Qed.

Lemma header_rank :
  forallb (fun e => Nat.eqb (section_rank e) 0)
          (events (print_header "LangChain v1.0 Agent Report" "bold cyan"))
  = true.
Proof. reflexivity. Qed.

Lemma input_rank (response : list (pystr * pyval)) :
  forallb (fun e => Nat.eqb (section_rank e) 1)
          (events (show_input response)) = true.
Proof. apply show_input_only; printed. Qed.

Lemma history_rank (response : list (pystr * pyval)) :
  forallb (fun e => Nat.eqb (section_rank e) 2)
          (events (show_history response)) = true.
Proof.
  unfold show_history.
  destruct (dict_get (lit "intermediate_steps") response);
    [apply print_intermediate_steps_only; printed|].
  destruct (dict_get (lit "messages") response);
    [apply print_message_history_only; printed | reflexivity].
Qed.

Lemma output_rank (response : list (pystr * pyval)) :
  forallb (fun e => Nat.eqb (section_rank e) 3)
          (events (show_output response)) = true.
Proof. apply show_output_only; printed. Qed.

Lemma debug_rank (response : list (pystr * pyval)) (show_raw : bool) :
  forallb (fun e => Nat.eqb (section_rank e) 4)
          (events (show_debug response show_raw)) = true.
Proof. apply show_debug_only; printed. Qed.

(** X15.  Every report, complete or cut short by an exception, starts
    with the empty line and the header panel, and its parts come in one
    order: header, input panel, tool history, final answer, raw dump. *)
Theorem report_sections_in_order
        (response : list (pystr * pyval)) (show_raw : bool) :
  let report := events (visualize_agent_response response show_raw) in
  nondecreasing (map section_rank report) = true
  /\ firstn 2 report =
     [PrintBlank;
      Print (Panel [FLit "LangChain v1.0 Agent Report"] "bold cyan" HEAVY
                   false None "center")].
Proof.
  cbv zeta. rewrite visualize_sections. split; [|reflexivity].
  pose proof (ranks_of 0 _ header_rank) as H0.
  pose proof (ranks_of 1 _ (input_rank response)) as H1.
  pose proof (ranks_of 2 _ (history_rank response)) as H2.
  pose proof (ranks_of 3 _ (output_rank response)) as H3.
  pose proof (ranks_of 4 _ (debug_rank response show_raw)) as H4.
  pose proof (ranked_app 4 _ [] H4 eq_refl (Forall_nil _)) as E4.
  rewrite app_nil_r in E4.
  pose proof (ranked_block 3 _ _ (returns (show_output response)) H3 E4)
    as E3.
  pose proof (ranked_block 2 _ _ (returns (show_history response)) H2 E3)
    as E2.
  pose proof (ranked_block 1 _ _ (returns (show_input response)) H1 E2)
    as E1.
  pose proof (ranked_block 0 _ _ true H0 E1) as E0.
  rewrite map_app, !map_app_if. exact (proj1 E0).
Qed.

Lemma filter_none (P : event -> bool) (l : list event) :
  forallb (fun e => negb (P e)) l = true -> filter P l = [].
Proof.
  induction l as [|e l IH]; [reflexivity|]. simpl. intros H.
  apply andb_true_iff in H as [He Hl]. apply negb_true_iff in He.
  rewrite He. now apply IH.
Qed.

Lemma print_input_prints_once (input_data : pyval) :
  length (events (print_input input_data)) <= 1.
Proof.
  unfold print_input.
  destruct input_data; try (cbn; lia).
  destruct (truthy _); [cbn; lia|].
  destruct (truthy _); [cbn; lia|].
  unfold json_dumps. destruct (serializable (PDict items)); cbn; lia.
Qed.

Lemma show_input_prints_once (response : list (pystr * pyval)) :
  length (events (show_input response)) <= 1.
Proof.
  unfold show_input.
  destruct (dict_get (lit "input") response);
    [apply print_input_prints_once|].
  destruct (dict_get (lit "messages") response) as [messages|];
    [|cbn; lia].
  destruct (nonempty messages) as [e|[|]]; try (cbn; lia).
  rewrite seq_lift_ok.
  destruct (first <- getitem_first messages ;;
            getattr first "content")%res as [e|content]; [cbn; lia|].
  rewrite seq_lift_ok. apply print_input_prints_once.
Qed.

(** X16.  No report holds more than one input panel, whatever the keys
    of the record and whether the call returns or raises. *)
Theorem input_panel_at_most_once
        (response : list (pystr * pyval)) (show_raw : bool) :
  length (filter is_input_panel
                 (events (visualize_agent_response response show_raw)))
  <= 1.
Proof.
  rewrite visualize_sections.
  assert (Hh : filter is_input_panel (events (show_history response)) = []).
  { apply filter_none. unfold show_history.
    destruct (dict_get (lit "intermediate_steps") response);
      [apply print_intermediate_steps_only; printed|].
    destruct (dict_get (lit "messages") response);
      [apply print_message_history_only; printed | reflexivity]. }
  assert (Ho : filter is_input_panel (events (show_output response)) = [])
    by (apply filter_none, show_output_only; printed).
  assert (Hd : filter is_input_panel
                      (events (show_debug response show_raw)) = [])
    by (apply filter_none, show_debug_only; printed).
  pose proof (show_input_prints_once response) as Hi.
  pose proof (filter_length_le is_input_panel
                               (events (show_input response))) as Hf.
  assert (Hp : filter is_input_panel
                      (events (print_header "LangChain v1.0 Agent Report"
                                            "bold cyan")) = [])
    by reflexivity.
  destruct (returns (show_input response)),
           (returns (show_history response)),
           (returns (show_output response));
    rewrite ?app_nil_r, ?filter_app, ?Hp, ?Hh, ?Ho, ?Hd, ?length_app;
    cbn [length]; lia.
Qed.

End SectionProperties.

Section AllOrNothing.

Local Open Scope string_scope.
Local Open Scope list_scope.




End AllOrNothing.
